(** * node-resolve: a shallow embedding of packages/node-resolve/src/index.js

    The plugin resolves import specifiers to module ids.  Promises are
    modelled by their settled state, and the code that runs between two
    suspension points is modelled as a state-passing function: the
    continuations of one promise chain run one after the other, each in the
    state left by the previous one.

    External collaborators (the [resolve] package, [path], [fs],
    [builtin-modules], [is-module], [createFilter]) are not part of the
    repository; they appear as the fields of an environment record or as
    section variables.  Strings are sequences of one-byte characters.

    Part I holds the definitions, Part II the properties, Part III
    further properties of the code. *)

From Stdlib Require Import Ascii String.
From stdpp Require Import base gmap strings list fin_maps.

Open Scope string_scope.
Open Scope list_scope.

(** * Part I: the model *)

(** ** JavaScript values used by the plugin *)

Module JS.

(** An [Error] object, as far as the plugin inspects it: [err.code]. *)
Record error := Error { code : string; message : string }.

(** The settled state of a promise. *)
Inductive settled (A : Type) :=
| Fulfilled (v : A)
| Rejected (e : error).
Arguments Fulfilled {A} v.
Arguments Rejected {A} e.

(** A string is truthy when it is not empty. *)
Definition truthyStr (s : string) : bool := negb (s =? "")%string.

(** [undefined] is [None]. *)
Definition truthy (v : option string) : bool :=
  match v with
  | Some s => truthyStr s
  | None => false
  end.

(** [s[0]]: the first character as a one-character string, or
    [undefined]. *)
Definition charAt0 (s : string) : option string :=
  match s with
  | EmptyString => None
  | String c _ => Some (String c EmptyString)
  end.

(** [s[0] === c] *)
Definition firstIs (s : string) (c : ascii) : bool :=
  match s with
  | EmptyString => false
  | String c' _ => Ascii.eqb c' c
  end.

(** [s.startsWith(t)], and also [s.indexOf(t) === 0]. *)
Definition startsWith (s t : string) : bool := String.prefix t s.

(** [s.split(sep)] for a separator that is one character out of a class:
    the pieces between separators, never an empty list. *)
Fixpoint splitOn (sep : ascii -> bool) (s : string) : list string :=
  match s with
  | EmptyString => [""]
  | String c s' =>
      if sep c then "" :: splitOn sep s'
      else
        match splitOn sep s' with
        | piece :: pieces => String c piece :: pieces
        | [] => [String c ""]
        end
  end.

(** White space as [String.prototype.trim] sees it, among the one-byte
    characters: tab, line feed, vertical tab, form feed, carriage return,
    space and the no-break space (character 160). *)
Definition isSpace (c : ascii) : bool :=
  let n := nat_of_ascii c in
  (Nat.leb 9 n && Nat.leb n 13) || Nat.eqb n 32 || Nat.eqb n 160.

Fixpoint trimStart (s : string) : string :=
  match s with
  | EmptyString => ""
  | String c s' => if isSpace c then trimStart s' else s
  end.

(** The string without its trailing white space. *)
Fixpoint trimEnd (s : string) : string :=
  match s with
  | EmptyString => ""
  | String c s' =>
      match trimEnd s' with
      | EmptyString => if isSpace c then "" else String c ""
      | t => String c t
      end
  end.

(** [s.trim()]; an argument, as in [jail.trim(sep)], is ignored by
    JavaScript. *)
Definition trim (s : string) : string := trimEnd (trimStart s).

End JS.
Import JS.

(** ** The fallback orchestrator: [resolveImportSpecifiers] *)

Section Orchestrator.

(** The state in which the continuations run. *)
Context {W : Type}.

(** [resolveIdAsync(file, resolveOptions)]: one run of the [resolve]
    package, which settles to a path or to an error. *)
Variable resolveIdAsync : string -> W -> settled string * W.

(** [p.then((v) => { if (v) return v; return resolveIdAsync(spec, opts) })],
    where [spec] is [importSpecifierList[i]]; the loop keeps [i] in range,
    so that [spec] is never [None]. *)
Definition thenAttempt (spec : option string) (p : settled (option string)) (w : W)
  : settled (option string) * W :=
  match p with
  | Fulfilled v =>
      if truthy v then (Fulfilled v, w)
      else
        match spec with
        | Some file =>
            match resolveIdAsync file w with
            | (Fulfilled contents, w') => (Fulfilled (Some contents), w')
            | (Rejected err, w') => (Rejected err, w')
            end
        | None => (p, w)
        end
  | Rejected err => (Rejected err, w)
  end.

(** [p.catch((err) => { if (err.code !== 'MODULE_NOT_FOUND') throw err; })] *)
Definition catchNotFound (p : settled (option string)) : settled (option string) :=
  match p with
  | Fulfilled v => Fulfilled v
  | Rejected err =>
      if (code err =? "MODULE_NOT_FOUND")%string then Fulfilled None else Rejected err
  end.

(** The body of the [for] loop at index [i]. *)
Definition loopBody (importSpecifierList : list string) (i : nat)
    (st : settled (option string) * W) : settled (option string) * W :=
  let '(p, w) := st in
  let '(p, w) := thenAttempt (importSpecifierList !! i) p w in
  if bool_decide (i < length importSpecifierList - 1)
  then (catchNotFound p, w)
  else (p, w).

(** [resolveImportSpecifiers(importSpecifierList, resolveOptions)]:
    [p] starts as [Promise.resolve()] and [i] runs from [0] to
    [importSpecifierList.length - 1]. *)
Definition resolveImportSpecifiers (importSpecifierList : list string) (w : W)
  : settled (option string) * W :=
  foldl (fun st i => loopBody importSpecifierList i st)
        (Fulfilled None, w)
        (seq 0 (length importSpecifierList)).

(** The same loop by recursion on the candidates still to try. *)
Fixpoint tryEach (l : list string) (p : settled (option string)) (w : W)
  : settled (option string) * W :=
  match l with
  | [] => (p, w)
  | spec :: rest =>
      let '(p, w) := thenAttempt (Some spec) p w in
      tryEach rest (match rest with [] => p | _ => catchNotFound p end) w
  end.

(** An instrumented [resolveIdAsync]: the state carries the log of the
    attempts made so far, each with the way it settled. *)
Definition logged (file : string) (lw : list (string * settled string) * W)
  : settled string * (list (string * settled string) * W) :=
  let '(log, w) := lw in
  let '(r, w') := resolveIdAsync file w in
  (r, (log ++ [(file, r)], w')).

(** What running [resolveIdAsync] on [files], one after the other, logs. *)
Fixpoint replay (files : list string) (w : W) : list (string * settled string) :=
  match files with
  | [] => []
  | file :: rest =>
      let '(r, w') := resolveIdAsync file w in (file, r) :: replay rest w'
  end.

End Orchestrator.

(** An attempt that settled to a module path. *)
Definition resolvedTo (r : settled string) (path : string) : Prop :=
  r = Fulfilled path /\ truthyStr path = true.

Definition failed (r : settled string) : Prop := exists e, r = Rejected e.

Definition notFound (r : settled string) : Prop :=
  exists e, r = Rejected e /\ code e = "MODULE_NOT_FOUND".

(** An attempt after which the loop goes on to the next candidate: a
    MODULE_NOT_FOUND failure, or a value that is not truthy. *)
Definition passedOver (r : settled string) : Prop :=
  notFound r \/ exists path, r = Fulfilled path /\ truthyStr path = false.

(** The runs of the loop over a non-empty list of candidates, attempt by
    attempt: [searches f l w p log w'] when the candidates [l], tried from
    the state [w], log the attempts [log] and leave the promise settled as
    [p] in the state [w']. *)
Inductive searches {W : Type} (f : string -> W -> settled string * W)
  : list string -> W -> settled (option string)
    -> list (string * settled string) -> W -> Prop :=
| search_found file rest w path w' :
    f file w = (Fulfilled path, w') ->
    truthyStr path = true ->
    searches f (file :: rest) w (Fulfilled (Some path)) [(file, Fulfilled path)] w'
| search_last_failed file w err w' :
    f file w = (Rejected err, w') ->
    searches f [file] w (Rejected err) [(file, Rejected err)] w'
| search_last_empty file w path w' :
    f file w = (Fulfilled path, w') ->
    truthyStr path = false ->
    searches f [file] w (Fulfilled (Some path)) [(file, Fulfilled path)] w'
| search_fault file next rest w err w' :
    f file w = (Rejected err, w') ->
    code err <> "MODULE_NOT_FOUND" ->
    searches f (file :: next :: rest) w (Rejected err) [(file, Rejected err)] w'
| search_next file next rest w r w' p log w'' :
    f file w = (r, w') ->
    passedOver r ->
    searches f (next :: rest) w' p log w'' ->
    searches f (file :: next :: rest) w p ((file, r) :: log) w''.

(** ** The probe cache: [cache], [ignoreENOENT], the three cached probes *)

Module ProbeCache.

(** An [fs.Stats] object, as far as the probes read it. *)
Record stats := Stats { isFile : bool; isDirectory : bool }.

(** The file system at the moment a primitive runs: how [fs.stat] and
    [fs.readFile] would settle on each path.  It may differ from one probe to
    the next. *)
Record fileSystem := FileSystem {
  stat : string -> settled stats;
  readFile : string -> settled string
}.

(** [statAsync(file)] and [readFileAsync(file)]: promise wrappers around the
    callbacks of [fs]. *)
Definition statAsync (file : string) (fs : fileSystem) : settled stats := stat fs file.
Definition readFileAsync (file : string) (fs : fileSystem) : settled string :=
  readFile fs file.

(** [ignoreENOENT(err)]: [false] for ENOENT, otherwise the error is thrown
    again. *)
Definition ignoreENOENT (err : error) : settled bool :=
  if (code err =? "ENOENT")%string then Fulfilled false else Rejected err.

(** [p.then(onFulfilled, onRejected)] *)
Definition then2 {A B} (p : settled A) (onFulfilled : A -> settled B)
    (onRejected : error -> settled B) : settled B :=
  match p with
  | Fulfilled v => onFulfilled v
  | Rejected err => onRejected err
  end.

Section Cache.

Context {A : Type}.

(** The wrapped primitive [fn]. *)
Variable fn : string -> fileSystem -> settled A.

(** [wrapped(param, done)]: what [done] receives, and the [Map] afterwards.
    A missing key stores the promise of [fn(param)]; its [catch] handler
    deletes the key again when that promise rejects.  [cache.get(param)] is
    read before the handler runs, so [done] receives the rejection. *)
Definition wrapped (param : string) (fs : fileSystem) (cache : gmap string (settled A))
  : settled A * gmap string (settled A) :=
  match cache !! param with
  | None =>
      let p := fn param fs in
      let cache := <[param := p]> cache in
      (p, match p with
          | Fulfilled _ => cache
          | Rejected _ => delete param cache
          end)
  | Some p => (p, cache)
  end.

(** [wrapped.clear()] *)
Definition clear (cache : gmap string (settled A)) : gmap string (settled A) := ∅.

(** Probes made one after the other; the results are dropped. *)
Definition probeAll (probes : list (string * fileSystem)) (cache : gmap string (settled A))
  : gmap string (settled A) :=
  foldl (fun cache pf => snd (wrapped (fst pf) (snd pf) cache)) cache probes.

End Cache.


(** [isDirCached = cache((file) => statAsync(file).then((stat) =>
    stat.isDirectory(), ignoreENOENT))] *)
Definition isDirProbe (file : string) (fs : fileSystem) : settled bool :=
  then2 (statAsync file fs) (fun stat => Fulfilled (isDirectory stat)) ignoreENOENT.
Definition isDirCached := wrapped isDirProbe.

(** [isFileCached = cache((file) => statAsync(file).then((stat) =>
    stat.isFile(), ignoreENOENT))] *)
Definition isFileProbe (file : string) (fs : fileSystem) : settled bool :=
  then2 (statAsync file fs) (fun stat => Fulfilled (isFile stat)) ignoreENOENT.
Definition isFileCached := wrapped isFileProbe.

(** The three module-level caches. *)
Record caches := Caches {
  readFileCache : gmap string (settled string);
  isFileCache : gmap string (settled bool);
  isDirCache : gmap string (settled bool)
}.

End ProbeCache.

(** ** Data of the plugin *)

(** A value of a [browser] map: [false] or a string (the
    package-browser-field-spec allows no other). *)
Inductive bval :=
| BFalse
| BStr (s : string).

(** A [browser] map is a JavaScript object used as a map from specifiers and
    paths to replacements; [None] on lookup is [undefined].  Only own
    properties are modelled. *)
Abbreviation browserMap := (gmap string bval).

(** The names that every plain object inherits from [Object.prototype].
    Reading one of them from a map that has no key of that name of its own
    gives a function (for [__proto__], the prototype object): a value that
    is truthy, is not [false] and is no string. *)
Definition objectPrototypeNames : list string :=
  ["constructor"; "hasOwnProperty"; "isPrototypeOf"; "propertyIsEnumerable";
   "toLocaleString"; "toString"; "valueOf"; "__defineGetter__";
   "__defineSetter__"; "__lookupGetter__"; "__lookupSetter__"; "__proto__"].

(** What [browser[key]] reads: a value of the map's own, or an inherited
    one. *)
Inductive property :=
| Own (v : bval)
| Inherited.

(** [browser[key]]; [None] is [undefined]. *)
Definition readProperty (browser : browserMap) (key : string) : option property :=
  match browser !! key with
  | Some v => Some (Own v)
  | None => if existsb (String.eqb key) objectPrototypeNames then Some Inherited else None
  end.

(** Truthiness of [browser[key]]. *)
Definition truthyP (v : option property) : bool :=
  match v with
  | Some (Own (BStr s)) => truthyStr s
  | Some (Own BFalse) => false
  | Some Inherited => true
  | None => false
  end.

(** [browser[key] === false] *)
Definition isFalseP (v : option property) : bool :=
  match v with
  | Some (Own BFalse) => true
  | _ => false
  end.

(** [a || b] *)
Definition orP (a b : option property) : option property := if truthyP a then a else b.

(** A field of a parsed package.json, as far as the plugin looks at it.
    ([null] and arrays in [browser], which also have [typeof] ['object'],
    are left out.) *)
Inductive json :=
| JString (s : string)
| JBool (b : bool)
| JArray (l : list string)
| JObject (o : list (string * bval)).

(** A parsed package.json: [None] on lookup is [undefined]. *)
Abbreviation manifest := (gmap string json).

(** [typeof pkg[field] === 'string'], with the string. *)
Definition stringField (pkg : manifest) (field : string) : option string :=
  match pkg !! field with
  | Some (JString s) => Some s
  | _ => None
  end.

(** [typeof pkg.browser === 'object'], with the entries in key order. *)
Definition browserObject (pkg : manifest) : option (list (string * bval)) :=
  match pkg !! "browser" with
  | Some (JObject o) => Some o
  | _ => None
  end.

(** The three shapes of [hasModuleSideEffects]: [alwaysNull], the constant
    function of a boolean [sideEffects], and
    [createFilter(packageSideEffects, null, { resolve: pkgRoot })]. *)
Inductive sideEffectsFn :=
| AlwaysNull
| Constantly (b : bool)
| Filter (patterns : list string) (pkgRoot : string).

(** [packageInfo] *)
Record packageInfoT := PackageInfo {
  packageJson : manifest;
  packageJsonPath : string;
  root : string;
  resolvedMainField : string;
  browserMappedMain : bool;
  resolvedEntryPoint : bval
}.

(** [internalPackageInfo]; [packageBrowserField] is [false] ([None]) or the
    map. *)
Record internalPackageInfoT := InternalPackageInfo {
  cachedPkg : manifest;
  i_hasModuleSideEffects : sideEffectsFn;
  i_hasPackageEntry : bool;
  i_packageBrowserField : option browserMap;
  i_packageInfo : packageInfoT
}.

(** [options.dedupe]: an array of names or a predicate. *)
Inductive dedupeT :=
| DedupeList (names : list string)
| DedupeFn (f : string -> bool).

(** An entry of [options.only]: a [RegExp], by its [test], or a string. *)
Inductive onlyEntry :=
| OnlyRegExp (test : string -> bool)
| OnlyString (s : string).

(** The options object.  A deprecated option [module], [main] or [jsnext]
    is [None] when the key is not in the object, otherwise its truthiness.
    [preferBuiltins] is [Some b] only for the booleans [true] and [false];
    [only] is [Some] only for an array. *)
Record options := Options {
  o_mainFields : option (list string);
  o_module : option bool;
  o_main : option bool;
  o_jsnext : option bool;
  o_browser : bool;
  o_dedupe : option dedupeT;
  o_preferBuiltins : option bool;
  o_rootDir : option string;
  o_jail : option string;
  o_only : option (list onlyEntry);
  o_skip : bool;
  o_extensions : option (list string);
  o_modulesOnly : bool
}.

(** The mutable state: the module-level probe caches, the maps of one plugin
    instance, [preserveSymlinks] as [buildStart] left it, and the warnings
    handed to [this.warn]. *)
Record state := State {
  probes : ProbeCache.caches;
  packageInfoCache : gmap string internalPackageInfoT;
  browserMapCache : gmap string browserMap;
  idToPackageInfo : gmap (option string) (option packageInfoT);
  preserveSymlinks : option bool;
  warnings : list string
}.

(** The collaborators outside the repository.  [resolveLib file basedir]
    stands for one run of the [resolve] package under the plugin's
    [resolveOptions] merged with [customResolveOptions]: the [packageFilter]
    calls it makes, in order, and how its callback settles.  The run may
    depend on what the plugin has cached, hence the state argument. *)
Record env := Env {
  dirname : string -> string;
  resolve : string -> string -> string;
  normalize : string -> string;
  extname : string -> string;
  cwd : string;
  realpathSync : string -> string;
  existsAsync : string -> bool;
  realpathAsync : string -> settled string;
  readFileAsync : string -> settled string;
  builtinList : list string;
  resolveLib : string -> string -> state -> list (manifest * string) * settled string;
  isModule : string -> bool;
  createFilter : list string -> string -> string -> bool
}.

(** The constants of one call of [nodeResolve(options)]. *)
Record plugin := Plugin {
  mainFields : list string;
  useBrowserOverrides : bool;
  dedupe : dedupeT;
  isPreferBuiltinsSet : bool;
  preferBuiltins : bool;
  rootDir : string;
  jail : option string;
  only : option (list (string -> bool));
  extensions : list string;
  modulesOnly : bool
}.

(** The variables of one [resolveId] call that [packageFilter] assigns. *)
Record request := Request {
  hasModuleSideEffects : sideEffectsFn;
  hasPackageEntry : bool;
  packageBrowserField : option browserMap;
  packageInfo : option packageInfoT
}.

(** What a hook hands back: [null], a string id, or
    [{ id, moduleSideEffects }]. *)
Inductive hookResult :=
| RNull
| RId (id : string)
| RModule (id : option string) (moduleSideEffects : option bool).

(** A hook returns (a promise of) a result or throws. *)
Inductive outcome :=
| Returns (r : hookResult)
| Throws (e : error).

(** A [TypeError] of the engine; it has no [code]. *)
Definition typeError (message : string) : error := Error "" message.

(** ** Setting up: [getMainFields], [getPackageName], [nodeResolve] *)

Definition ES6_BROWSER_EMPTY : string := String "000"%char "node-resolve:empty.js".

Definition DEFAULT_EXTS : list string := [".mjs"; ".js"; ".json"; ".node"].

(** [l.indexOf(x) !== -1] and [l.includes(x)] on an array of strings. *)
Definition includes (l : list string) (x : string) : bool :=
  existsb (String.eqb x) l.

(** The three deprecated options in the order of the [forEach]:
    [(option, field, defaultIncluded)]; the [console.warn] is not
    modelled. *)
Definition deprecatedField (given : option bool) (field : string) (defaultIncluded : bool)
  : list string :=
  match given with
  | Some value => if value then [field] else []
  | None => if defaultIncluded then [field] else []
  end.

(** [getMainFields(options)] *)
Definition getMainFields (o : options) : error + list string :=
  let chosen : error + list string :=
    match o_mainFields o with
    | Some fields =>
        match o_module o, o_main o, o_jsnext o with
        | None, None, None => inr fields
        | _, _, _ =>
            inl (Error "" "node-resolve: do not use deprecated 'module', 'main', 'jsnext' options with 'mainFields'")
        end
    | None =>
        inr (deprecatedField (o_module o) "module" true
             ++ deprecatedField (o_jsnext o) "jsnext:main" false
             ++ deprecatedField (o_main o) "main" true)
    end in
  match chosen with
  | inl err => inl err
  | inr fields =>
      if o_browser o && negb (includes fields "browser") then inr ("browser" :: fields)
      else
        match fields with
        | [] => inl (Error "" "Please ensure at least one 'mainFields' value is specified")
        | _ => inr fields
        end
  end.

Definition isSlash (c : ascii) : bool := Ascii.eqb c "/"%char.

(** [getPackageName(id)]: the imported package name for bare module imports,
    [null] for a relative or absolute one.  A missing [split[1]] prints as
    [undefined] in the template string. *)
Definition getPackageName (id : string) : option string :=
  if startsWith id "." || startsWith id "/" then None
  else
    match splitOn isSlash id with
    | first :: rest =>
        if firstIs first "@"
        then Some (first +:+ "/" +:+ default "undefined" (head rest))
        else Some first
    | [] => None
    end.

(** [new RegExp(`^${escaped}$`)] for a string entry of [only], every
    special character of which is escaped: its [test] holds of that string
    and of no other. *)
Definition onlyTest (entry : onlyEntry) : string -> bool :=
  match entry with
  | OnlyRegExp test => test
  | OnlyString s => fun id => (id =? s)%string
  end.

(** [nodeResolve(options)], up to the hooks it returns. *)
Definition nodeResolve (e : env) (o : options) : error + plugin :=
  match getMainFields o with
  | inl err => inl err
  | inr fields =>
      if o_skip o
      then inl (Error "" "options.skip is no longer supported — you should use the main Rollup `external` option instead")
      else
        inr {| mainFields := fields;
               useBrowserOverrides := includes fields "browser";
               dedupe := default (DedupeList []) (o_dedupe o);
               isPreferBuiltinsSet := bool_decide (is_Some (o_preferBuiltins o));
               preferBuiltins := default true (o_preferBuiltins o);
               rootDir := match o_rootDir o with
                          | Some dir => if truthyStr dir then dir else cwd e
                          | None => cwd e
                          end;
               jail := o_jail o;
               only := fmap (map onlyTest) (o_only o);
               extensions := default DEFAULT_EXTS (o_extensions o);
               modulesOnly := o_modulesOnly o |}
  end.

(** [shouldDedupe(importee)] *)
Definition shouldDedupe (pl : plugin) (importee : string) : bool :=
  match dedupe pl with
  | DedupeFn f => f importee
  | DedupeList names =>
      includes names importee
      || match getPackageName importee with
         | Some name => includes names name
         | None => false
         end
  end.

(** State updates. *)
Definition setPackageInfoCache (k : string) (v : internalPackageInfoT) (st : state) : state :=
  {| probes := probes st;
     packageInfoCache := <[k := v]> (packageInfoCache st);
     browserMapCache := browserMapCache st;
     idToPackageInfo := idToPackageInfo st;
     preserveSymlinks := preserveSymlinks st;
     warnings := warnings st |}.

Definition setBrowserMapCache (k : string) (v : browserMap) (st : state) : state :=
  {| probes := probes st;
     packageInfoCache := packageInfoCache st;
     browserMapCache := <[k := v]> (browserMapCache st);
     idToPackageInfo := idToPackageInfo st;
     preserveSymlinks := preserveSymlinks st;
     warnings := warnings st |}.

Definition setIdToPackageInfo (k : option string) (v : option packageInfoT) (st : state) : state :=
  {| probes := probes st;
     packageInfoCache := packageInfoCache st;
     browserMapCache := browserMapCache st;
     idToPackageInfo := <[k := v]> (idToPackageInfo st);
     preserveSymlinks := preserveSymlinks st;
     warnings := warnings st |}.

(** [this.warn(message)] *)
Definition warn (message : string) (st : state) : state :=
  {| probes := probes st;
     packageInfoCache := packageInfoCache st;
     browserMapCache := browserMapCache st;
     idToPackageInfo := idToPackageInfo st;
     preserveSymlinks := preserveSymlinks st;
     warnings := warnings st ++ [message] |}.

(** [!preserveSymlinks] *)
Definition followSymlinks (st : state) : bool :=
  match preserveSymlinks st with
  | Some true => false
  | _ => true
  end.

(** ** The manifest interpreter: [getCachedPackageInfo] *)

(** The loop over [mainFields]: the first field whose value in [pkg] is a
    string overrides [pkg.main].  The result is the munged [pkg],
    [resolvedMainField] and [overriddenMain]. *)
Fixpoint selectMainField (fields : list string) (pkg : manifest)
  : manifest * string * bool :=
  match fields with
  | [] => (pkg, "main", false)
  | field :: rest =>
      match stringField pkg field with
      | Some value => (<["main" := JString value]> pkg, field, true)
      | None => selectMainField rest pkg
      end
  end.

(** One step of the [reduce] over [Object.keys(pkg.browser)]. *)
Definition browserFieldStep (e : env) (exts : list string) (pkgRoot : string)
    (browser : browserMap) (entry : string * bval) : browserMap :=
  let '(key, value) := entry in
  let resolved :=
    match value with
    | BStr s => if truthyStr s && firstIs s "." then BStr (resolve e pkgRoot s) else value
    | BFalse => BFalse
    end in
  let browser := <[key := resolved]> browser in
  if firstIs key "."
  then
    let absoluteKey := resolve e pkgRoot key in
    let browser := <[absoluteKey := resolved]> browser in
    if negb (truthyStr (extname e key))
    then
      foldl (fun (browser : browserMap) ext =>
               match browser !! key with
               | Some v => <[absoluteKey +:+ ext := v]> browser
               | None => browser
               end)
            browser exts
    else browser
  else browser.

(** [String(pkg.main)], the key [hasOwnProperty(pkg.main)] looks up. *)
Definition propertyKey (v : option json) : string :=
  match v with
  | None => "undefined"
  | Some (JString s) => s
  | Some (JBool b) => if b then "true" else "false"
  | Some (JArray l) => String.concat "," l
  | Some (JObject _) => "[object Object]"
  end.

(** The [TypeError] of [path.resolve] for an argument that is no string
    (the wording of the message is that of Node and changes with its
    version). *)
Definition pathTypeError : error :=
  Error "ERR_INVALID_ARG_TYPE" "The 'path' argument must be of type string".

(** [pkg.main || 'index.js'] as the argument of [resolve], line 275: the
    string it is, or [None] when it is no string - [true], an array or an
    object -, for which [path.resolve] throws. *)
Definition mainOrIndex (pkg : manifest) : option string :=
  match pkg !! "main" with
  | None => Some "index.js"
  | Some (JString s) => Some (if truthyStr s then s else "index.js")
  | Some (JBool false) => Some "index.js"
  | Some _ => None
  end.

(** Lines 264 to 277: [resolvedEntryPoint] and [browserMappedMain], or the
    exception thrown.  [browserMap.hasOwnProperty] is the method of
    [Object.prototype] unless the map has a key [hasOwnProperty] of its own,
    whose value is no function: the call throws then. *)
Definition entryPoint (e : env) (pkgRoot : string) (pkg : manifest)
    (packageBrowserField : option browserMap) : error + bval * bool :=
  let plain : error + bval * bool :=
    match mainOrIndex pkg with
    | Some main => inr (BStr (resolve e pkgRoot main), false)
    | None => inl pathTypeError
    end in
  match packageBrowserField with
  | Some browserMap =>
      match browserMap !! "hasOwnProperty" with
      | Some _ => inl (typeError "browserMap.hasOwnProperty is not a function")
      | None =>
          match browserMap !! propertyKey (pkg !! "main") with
          | Some v => inr (v, true)
          | None => plain
          end
      end
  | None => plain
  end.

(** [getCachedPackageInfo(pkg, pkgPath)]: what it returns, or the exception
    it throws ([inl]), and the state afterwards.  An exception leaves before
    [packageInfoCache.set]. *)
Definition getCachedPackageInfo (pl : plugin) (e : env) (pkg : manifest) (pkgPath : string)
    (st : state) : (error + internalPackageInfoT) * state :=
  match packageInfoCache st !! pkgPath with
  | Some info => (inr info, st)
  | None =>
      let pkgPath := if followSymlinks st then realpathSync e pkgPath else pkgPath in
      let pkgRoot := dirname e pkgPath in
      let packageJson := pkg in
      let '(pkg, resolvedMainField, overriddenMain) := selectMainField (mainFields pl) pkg in
      let packageBrowserField :=
        if useBrowserOverrides pl
        then
          match browserObject pkg with
          | Some entries =>
              Some (foldl (browserFieldStep e (extensions pl) pkgRoot) ∅ entries)
          | None => None
          end
        else None in
      match entryPoint e pkgRoot pkg packageBrowserField with
      | inl err => (inl err, st)
      | inr (resolvedEntryPoint, browserMappedMain) =>
          let packageInfo :=
            {| packageJson := packageJson;
               packageJsonPath := pkgPath;
               root := pkgRoot;
               resolvedMainField := resolvedMainField;
               browserMappedMain := browserMappedMain;
               resolvedEntryPoint := resolvedEntryPoint |} in
          let internalPackageInfo :=
            {| cachedPkg := pkg;
               i_hasModuleSideEffects :=
                 match pkg !! "sideEffects" with
                 | Some (JBool b) => Constantly b
                 | Some (JArray patterns) => Filter patterns pkgRoot
                 | _ => AlwaysNull
                 end;
               i_hasPackageEntry := overriddenMain || includes (mainFields pl) "main";
               i_packageBrowserField := packageBrowserField;
               i_packageInfo := packageInfo |} in
          (inr internalPackageInfo, setPackageInfoCache pkgPath internalPackageInfo st)
      end
  end.

(** [resolveOptions.packageFilter(pkg, pkgPath)]: the [cachedPkg] it
    returns to the [resolve] package and the assignment to the variables of
    the request; when [getCachedPackageInfo] throws, nothing is assigned and
    the exception goes to the [resolve] package. *)
Definition packageFilter (pl : plugin) (e : env) (w : request * state)
    (call : manifest * string) : (error + manifest) * (request * state) :=
  let '(rq, st) := w in
  match getCachedPackageInfo pl e (fst call) (snd call) st with
  | (inr info, st) =>
      (inr (cachedPkg info),
       ({| hasModuleSideEffects := i_hasModuleSideEffects info;
           hasPackageEntry := i_hasPackageEntry info;
           packageBrowserField := i_packageBrowserField info;
           packageInfo := Some (i_packageInfo info) |}, st))
  | (inl err, st) => (inl err, (rq, st))
  end.

(** The [packageFilter] calls of one run of the [resolve] package, in
    order.  The package calls the filter from the callback of a read and
    does not catch what it throws: a call that throws is the last of the
    run. *)
Fixpoint packageFilterCalls (pl : plugin) (e : env) (calls : list (manifest * string))
    (w : request * state) : request * state :=
  match calls with
  | [] => w
  | call :: rest =>
      match packageFilter pl e w call with
      | (inr _, w) => packageFilterCalls pl e rest w
      | (inl _, w) => w
      end
  end.

(** ** The hooks: [buildStart], [generateBundle], [load],
    [getPackageInfoForId] *)

(** [buildStart(options)], without the check of the Rollup version. *)
Definition buildStart (preserve : option bool) (st : state) : state :=
  {| probes := probes st;
     packageInfoCache := packageInfoCache st;
     browserMapCache := browserMapCache st;
     idToPackageInfo := idToPackageInfo st;
     preserveSymlinks := preserve;
     warnings := warnings st |}.

(** [generateBundle()] *)
Definition generateBundle (st : state) : state :=
  {| probes :=
       {| ProbeCache.readFileCache := ProbeCache.clear (ProbeCache.readFileCache (probes st));
          ProbeCache.isFileCache := ProbeCache.clear (ProbeCache.isFileCache (probes st));
          ProbeCache.isDirCache := ProbeCache.clear (ProbeCache.isDirCache (probes st)) |};
     packageInfoCache := packageInfoCache st;
     browserMapCache := browserMapCache st;
     idToPackageInfo := idToPackageInfo st;
     preserveSymlinks := preserveSymlinks st;
     warnings := warnings st |}.

(** [load(importee)] *)
Definition load (importee : string) : option string :=
  if (importee =? ES6_BROWSER_EMPTY)%string then Some "export default {};" else None.

(** [getPackageInfoForId(id)] *)
Definition getPackageInfoForId (id : string) (st : state) : option packageInfoT :=
  match idToPackageInfo st !! Some id with
  | Some info => info
  | None => None
  end.

(** ** The hook [resolveId] *)

(** [/\0/.test(s)] *)
Fixpoint hasNul (s : string) : bool :=
  match s with
  | EmptyString => false
  | String c s' => Ascii.eqb c "000"%char || hasNul s'
  end.

(** [builtins.has(x)]; [undefined] is no member. *)
Definition isBuiltin (e : env) (x : option string) : bool :=
  match x with
  | Some name => includes (builtinList e) name
  | None => false
  end.

(** Line 320: [!importer || shouldDedupe(importee) ? rootDir :
    dirname(importer)]. *)
Definition baseDirectory (pl : plugin) (e : env) (importee : string)
    (importer : option string) : string :=
  match importer with
  | Some file =>
      if negb (truthyStr file) || shouldDedupe pl importee
      then rootDir pl else dirname e file
  | None => rootDir pl
  end.

(** Where the first part of [resolveId] leaves the request: it has returned,
    it goes on with a base directory and the (possibly replaced) importee,
    or it has thrown. *)
Inductive stage :=
| Done (r : hookResult)
| Proceed (basedir importee : string)
| Fault (e : error).

(** Lines 314 to 339: the two guards on virtual ids, the base directory and
    the browser map recorded for the importer.  The map is a plain object
    and [browser[key]] also reads what it inherits: an inherited value that
    comes out of the chain of [||] becomes the importee, and
    [importee.split], line 339, throws because it is no string. *)
Definition browserStage (pl : plugin) (e : env) (importee : string)
    (importer : option string) (st : state) : stage :=
  if (importee =? ES6_BROWSER_EMPTY)%string then Done (RId importee)
  else if hasNul importee then Done RNull
  else
    let basedir := baseDirectory pl e importee importer in
    let browser :=
      match importer with
      | Some file => browserMapCache st !! file
      | None => None
      end in
    match browser with
    | Some browser =>
        if useBrowserOverrides pl
        then
          let resolvedImportee := resolve e basedir importee in
          if isFalseP (readProperty browser importee)
             || isFalseP (readProperty browser resolvedImportee)
          then Done (RId ES6_BROWSER_EMPTY)
          else
            let browserImportee :=
              orP (orP (orP (readProperty browser importee)
                            (readProperty browser resolvedImportee))
                       (readProperty browser (resolvedImportee +:+ ".js")))
                  (readProperty browser (resolvedImportee +:+ ".json")) in
            match browserImportee with
            | Some (Own (BStr replacement)) =>
                if truthyStr replacement
                then Proceed basedir replacement
                else Proceed basedir importee
            | Some Inherited => Fault (typeError "importee.split is not a function")
            | _ => Proceed basedir importee
            end
        else Proceed basedir importee
    | None => Proceed basedir importee
    end.

Definition isSlashOrBackslash (c : ascii) : bool :=
  Ascii.eqb c "/"%char || Ascii.eqb c "\"%char.


(** Lines 339 to 348: the [id] that the patterns of [only] are tested on.
    [parts.shift()] of an empty array would be [undefined]; [split] never
    returns one. *)
Definition onlyId (e : env) (basedir importee : string) : string :=
  match splitOn isSlashOrBackslash importee with
  | id :: parts =>
      if firstIs id "@" && bool_decide (0 < length parts)
      then id +:+ "/" +:+ default "" (head parts)
      else if firstIs id "." then resolve e basedir importee
      else id
  | [] => ""
  end.

(** [only && !only.some((pattern) => pattern.test(id))] is false. *)
Definition onlyAllows (pl : plugin) (id : string) : bool :=
  match only pl with
  | Some patterns => existsb (fun test => test id) patterns
  | None => true
  end.

(** [s.match(/^\.?\.?\//)] is not [null]. *)
Definition matchesDotsSlash (s : string) : bool :=
  startsWith s "/" || startsWith s "./" || startsWith s "../".

(** Lines 381 to 405: [importSpecifierList].  [importee[0]] of the empty
    string is [undefined], and calling [match] on it throws. *)
Definition importSpecifierList (pl : plugin) (e : env) (importee : string)
    (importer : option string) : error + list string :=
  let shorthand : error + list string :=
    match importer with
    | None =>
        match charAt0 importee with
        | Some first =>
            inr (if negb (matchesDotsSlash first) then ["./" +:+ importee] else [])
        | None => inl (typeError "Cannot read property 'match' of undefined")
        end
    | Some _ => inr []
    end in
  match shorthand with
  | inl err => inl err
  | inr shorthand =>
      let importeeIsBuiltin := isBuiltin e (Some importee) in
      inr (shorthand
           ++ (if importeeIsBuiltin
                  && (negb (preferBuiltins pl) || negb (isPreferBuiltinsSet pl))
               then [importee +:+ "/"] else [])
           ++ [importee])
  end.

(** [resolveIdAsync(file, resolveOptions)] inside [resolveId]: the run of
    the [resolve] package and the [packageFilter] calls it makes.  How the
    callback of the package settles - also after a call of the filter that
    threw - is the package's answer, [r]. *)
Definition resolveIdAsync (pl : plugin) (e : env) (basedir : string) (file : string)
    (w : request * state) : settled string * (request * state) :=
  let '(calls, r) := resolveLib e file basedir (snd w) in
  (r, packageFilterCalls pl e calls w).

(** Lines 410 to 428, the first [then]: the browser map of the package that
    was found, and the real path. *)
Definition thenBrowserField (pl : plugin) (e : env) (rq : request)
    (resolved : option string) (st : state) : settled (option string) * state :=
  let realpathStep (resolved : option string) (st : state) :=
    match resolved with
    | Some path =>
        if hasPackageEntry rq && followSymlinks st && truthyStr path
        then
          if existsAsync e path
          then
            match realpathAsync e path with
            | Fulfilled real => (Fulfilled (Some real), st)
            | Rejected err => (Rejected err, st)
            end
          else (Fulfilled resolved, st)
        else (Fulfilled resolved, st)
    | None => (Fulfilled resolved, st)
    end in
  match resolved, packageBrowserField rq with
  | Some path, Some field =>
      if truthyStr path
      then
        match field !! path with
        | Some (BStr replacement) =>
            if truthyStr replacement
            then realpathStep (Some replacement) (setBrowserMapCache replacement field st)
            else (Fulfilled (Some ES6_BROWSER_EMPTY), setBrowserMapCache path field st)
        | Some BFalse =>
            (Fulfilled (Some ES6_BROWSER_EMPTY), setBrowserMapCache path field st)
        | None => realpathStep resolved (setBrowserMapCache path field st)
        end
      else realpathStep resolved st
  | _, _ => realpathStep resolved st
  end.

(** [hasModuleSideEffects(resolved)]; a filter made by [createFilter]
    answers [false] for an id that is no string. *)
Definition applySideEffects (e : env) (f : sideEffectsFn) (resolved : option string)
  : option bool :=
  match f with
  | AlwaysNull => None
  | Constantly b => Some b
  | Filter patterns pkgRoot =>
      match resolved with
      | Some id => Some (createFilter e patterns pkgRoot id)
      | None => Some false
      end
  end.

Definition builtinWarning (importee : string) (resolved : option string) : string :=
  "preferring built-in module '" +:+ importee +:+ "' over local alternative at '"
  +:+ default "undefined" resolved
  +:+ "', pass 'preferBuiltins: false' to disable this behavior or 'preferBuiltins: true' to disable this warning".

(** Lines 449 to 456: the module-format filter and the final record. *)
Definition finalRecord (pl : plugin) (e : env) (rq : request) (resolved : option string)
  : settled hookResult :=
  let record := RModule resolved (applySideEffects e (hasModuleSideEffects rq) resolved) in
  match resolved with
  | Some path =>
      if truthyStr path && modulesOnly pl
      then
        match readFileAsync e path with
        | Fulfilled code => Fulfilled (if isModule e code then record else RNull)
        | Rejected err => Rejected err
        end
      else Fulfilled record
  | None => Fulfilled record
  end.

(** [jail && resolved.indexOf(normalize(jail.trim(sep))) !== 0]:
    [Some true] when the jail rejects, [None] when [indexOf] is called on
    [undefined] and throws. *)
Definition jailRejects (pl : plugin) (e : env) (resolved : option string) : option bool :=
  match jail pl with
  | Some dir =>
      if truthyStr dir
      then
        match resolved with
        | Some path => Some (negb (startsWith path (normalize e (trim dir))))
        | None => None
        end
      else Some false
  | None => Some false
  end.

(** Lines 429 to 457, the second [then]: the policy decisions. *)
Definition thenPolicy (pl : plugin) (e : env) (importee : string) (rq : request)
    (resolved : option string) (st : state) : settled hookResult * state :=
  let st := setIdToPackageInfo resolved (packageInfo rq) st in
  let importeeIsBuiltin := isBuiltin e (Some importee) in
  if hasPackageEntry rq
  then
    if isBuiltin e resolved && preferBuiltins pl && isPreferBuiltinsSet pl
    then (Fulfilled RNull, st)
    else if importeeIsBuiltin && preferBuiltins pl
    then (Fulfilled RNull,
          if negb (isPreferBuiltinsSet pl)
          then warn (builtinWarning importee resolved) st else st)
    else
      match jailRejects pl e resolved with
      | Some true => (Fulfilled RNull, st)
      | Some false => (finalRecord pl e rq resolved, st)
      | None => (Rejected (typeError "Cannot read property 'indexOf' of undefined"), st)
      end
  else (finalRecord pl e rq resolved, st).

(** The variables of a request as line 352 to 355 initialise them. *)
Definition initialRequest : request :=
  {| hasModuleSideEffects := AlwaysNull;
     hasPackageEntry := true;
     packageBrowserField := None;
     packageInfo := None |}.

(** Lines 406 to 428: the candidate loop and the first [then]. *)
Definition searchPhase (pl : plugin) (e : env) (basedir : string)
    (specifiers : list string) (st : state)
  : settled (option string) * request * state :=
  let '(p, (rq, st)) :=
    resolveImportSpecifiers (resolveIdAsync pl e basedir) specifiers (initialRequest, st) in
  match p with
  | Fulfilled resolved =>
      let '(p, st) := thenBrowserField pl e rq resolved st in (p, rq, st)
  | Rejected err => (Rejected err, rq, st)
  end.

(** Lines 352 to 458: the candidates, the promise chain and its final
    [.catch(() => null)]. *)
Definition resolveFrom (pl : plugin) (e : env) (basedir importee : string)
    (importer : option string) (st : state) : outcome * state :=
  match importSpecifierList pl e importee importer with
  | inl err => (Throws err, st)
  | inr specifiers =>
      let '(p, rq, st) := searchPhase pl e basedir specifiers st in
      let '(p, st) :=
        match p with
        | Fulfilled resolved => thenPolicy pl e importee rq resolved st
        | Rejected err => (Rejected err, st)
        end in
      match p with
      | Fulfilled r => (Returns r, st)
      | Rejected _ => (Returns RNull, st)
      end
  end.

(** [resolveId(importee, importer)] *)
Definition resolveId (pl : plugin) (e : env) (importee : string)
    (importer : option string) (st : state) : outcome * state :=
  match browserStage pl e importee importer st with
  | Done r => (Returns r, st)
  | Proceed basedir importee =>
      if onlyAllows pl (onlyId e basedir importee)
      then resolveFrom pl e basedir importee importer st
      else (Returns RNull, st)
  | Fault err => (Throws err, st)
  end.

(** A directory and what lies below it, as paths: the directory itself and
    every path that continues it after a separator. *)
Definition inSubtree (dir path : string) : bool :=
  (path =? dir)%string || startsWith path (dir +:+ "/").

(** ** A small world to run the model in

    Stand-ins for [path] on POSIX, right on absolute paths without a
    trailing separator, and a file system in which every absolute path
    exists and is its own real path. *)

Module Demo.

Fixpoint normalizeSegments (segments stack : list string) : list string :=
  match segments with
  | [] => rev stack
  | seg :: rest =>
      if (seg =? "")%string || (seg =? ".")%string then normalizeSegments rest stack
      else if (seg =? "..")%string then normalizeSegments rest (tail stack)
      else normalizeSegments rest (seg :: stack)
  end.

Definition normalizeAbsolute (p : string) : string :=
  "/" +:+ String.concat "/" (normalizeSegments (splitOn isSlash p) []).

Definition posixResolve (base p : string) : string :=
  if startsWith p "/" then normalizeAbsolute p
  else normalizeAbsolute (base +:+ "/" +:+ p).

Definition posixDirname (p : string) : string :=
  match String.concat "/" (removelast (splitOn isSlash p)) with
  | EmptyString => "/"
  | dir => dir
  end.

(** The extension of the last segment: from its last dot, unless that dot
    starts the segment. *)
Fixpoint lastDot (s : string) : option string :=
  match s with
  | EmptyString => None
  | String c s' =>
      match lastDot s' with
      | Some ext => Some ext
      | None => if Ascii.eqb c "."%char then Some s else None
      end
  end.

Definition posixExtname (p : string) : string :=
  match last (splitOn isSlash p) with
  | Some (String _ rest) => default "" (lastDot rest)
  | _ => ""
  end.

Definition notFoundError (file : string) : error :=
  Error "MODULE_NOT_FOUND" ("Cannot find module '" +:+ file +:+ "'").

Definition accessError (file : string) : error :=
  Error "EACCES" ("EACCES: permission denied, stat '" +:+ file +:+ "'").

(** An environment around a table for the [resolve] package. *)
Definition envOf (table : string -> string -> list (manifest * string) * settled string)
  : env :=
  {| dirname := posixDirname;
     resolve := posixResolve;
     normalize := normalizeAbsolute;
     extname := posixExtname;
     cwd := "/proj";
     realpathSync := fun p => p;
     existsAsync := fun p => startsWith p "/";
     realpathAsync := fun p => Fulfilled p;
     readFileAsync := fun _ => Fulfilled "export default 1;";
     builtinList := ["assert"; "events"; "fs"; "path"; "util"];
     resolveLib := fun file basedir _ => table file basedir;
     isModule := fun _ => true;
     createFilter := fun _ _ _ => true |}.

Definition emptyState : state :=
  {| probes := ProbeCache.Caches ∅ ∅ ∅;
     packageInfoCache := ∅;
     browserMapCache := ∅;
     idToPackageInfo := ∅;
     preserveSymlinks := None;
     warnings := [] |}.

Definition defaultOptions : options :=
  {| o_mainFields := None; o_module := None; o_main := None; o_jsnext := None;
     o_browser := false; o_dedupe := None; o_preferBuiltins := None;
     o_rootDir := None; o_jail := None; o_only := None; o_skip := false;
     o_extensions := None; o_modulesOnly := false |}.

(** The plugin that [nodeResolve(defaultOptions)] makes in this world. *)
Definition defaultPlugin : plugin :=
  {| mainFields := ["module"; "main"];
     useBrowserOverrides := false;
     dedupe := DedupeList [];
     isPreferBuiltinsSet := false;
     preferBuiltins := true;
     rootDir := "/proj";
     jail := None;
     only := None;
     extensions := DEFAULT_EXTS;
     modulesOnly := false |}.

(** A [resolve] package that finds nothing. *)
Definition nothingThere (file basedir : string) : list (manifest * string) * settled string :=
  ([], Rejected (notFoundError file)).


(** [/a/b/main.js] imports [../bc/x.js], a file of the sibling directory
    [/a/bc]; no package.json lies above it. *)
Definition siblingFile (file basedir : string) : list (manifest * string) * settled string :=
  if (file =? "../bc/x.js")%string && (basedir =? "/a/b")%string
  then ([], Fulfilled "/a/bc/x.js")
  else ([], Rejected (notFoundError file)).

(** The options [{ jail: '/a/b', rootDir: '/a/b' }] and their plugin. *)
Definition jailedOptions : options :=
  {| o_mainFields := None; o_module := None; o_main := None; o_jsnext := None;
     o_browser := false; o_dedupe := None; o_preferBuiltins := None;
     o_rootDir := Some "/a/b"; o_jail := Some "/a/b"; o_only := None;
     o_skip := false; o_extensions := None; o_modulesOnly := false |}.

Definition jailedPlugin : plugin :=
  {| mainFields := ["module"; "main"];
     useBrowserOverrides := false;
     dedupe := DedupeList [];
     isPreferBuiltinsSet := false;
     preferBuiltins := true;
     rootDir := "/a/b";
     jail := Some "/a/b";
     only := None;
     extensions := DEFAULT_EXTS;
     modulesOnly := false |}.

(** Two versions of the manifest of the package [pkg]. *)
Definition pkgPath : string := "/proj/node_modules/pkg/package.json".
Definition oldManifest : manifest := {[ "main" := JString "old.js" ]}.
Definition newManifest : manifest := {[ "main" := JString "new.js" ]}.

(** The options [{ only: ['allowed'] }] and their plugin. *)
Definition onlyAllowedOptions : options :=
  {| o_mainFields := None; o_module := None; o_main := None; o_jsnext := None;
     o_browser := false; o_dedupe := None; o_preferBuiltins := None;
     o_rootDir := None; o_jail := None; o_only := Some [OnlyString "allowed"];
     o_skip := false; o_extensions := None; o_modulesOnly := false |}.

Definition onlyAllowedPlugin : plugin :=
  {| mainFields := ["module"; "main"];
     useBrowserOverrides := false;
     dedupe := DedupeList [];
     isPreferBuiltinsSet := false;
     preferBuiltins := true;
     rootDir := "/proj";
     jail := None;
     only := Some [onlyTest (OnlyString "allowed")];
     extensions := DEFAULT_EXTS;
     modulesOnly := false |}.

(** A project with a local package [events], whose name is also that of a
    built-in module: [events/] is found in [node_modules], [events] alone
    is answered with the name of the built-in. *)
Definition eventsManifest : manifest :=
  {[ "name" := JString "events"; "main" := JString "./events.js" ]}.

Definition localEvents (file basedir : string) : list (manifest * string) * settled string :=
  if (file =? "events/")%string
  then ([(eventsManifest, "/proj/node_modules/events/package.json")],
        Fulfilled "/proj/node_modules/events/events.js")
  else if (file =? "events")%string then ([], Fulfilled "events")
  else ([], Rejected (notFoundError file)).

(** A package [pkg] whose manifest maps [foo] to [false] for browsers, and
    the plugin of the options [{ browser: true }]. *)
Definition browserOptions : options :=
  {| o_mainFields := None; o_module := None; o_main := None; o_jsnext := None;
     o_browser := true; o_dedupe := None; o_preferBuiltins := None;
     o_rootDir := None; o_jail := None; o_only := None;
     o_skip := false; o_extensions := None; o_modulesOnly := false |}.

Definition browserManifest : manifest :=
  {[ "name" := JString "pkg"; "main" := JString "./index.js";
     "browser" := JObject [("foo", BFalse)] ]}.

Definition browserPackage (file basedir : string)
  : list (manifest * string) * settled string :=
  if (file =? "pkg")%string
  then ([(browserManifest, pkgPath)], Fulfilled "/proj/node_modules/pkg/index.js")
  else ([], Rejected (notFoundError file)).

Definition browserPlugin : plugin :=
  {| mainFields := ["browser"; "module"; "main"];
     useBrowserOverrides := true;
     dedupe := DedupeList [];
     isPreferBuiltinsSet := false;
     preferBuiltins := true;
     rootDir := "/proj";
     jail := None;
     only := None;
     extensions := DEFAULT_EXTS;
     modulesOnly := false |}.

(** The options [{ mainFields: ['module'] }] and the plugin they make: the
    [main] field of a manifest is no entry for it. *)
Definition moduleOnlyOptions : options :=
  {| o_mainFields := Some ["module"]; o_module := None; o_main := None;
     o_jsnext := None; o_browser := false; o_dedupe := None;
     o_preferBuiltins := None; o_rootDir := None; o_jail := None;
     o_only := None; o_skip := false; o_extensions := None;
     o_modulesOnly := false |}.

Definition moduleOnlyPlugin : plugin :=
  {| mainFields := ["module"];
     useBrowserOverrides := false;
     dedupe := DedupeList [];
     isPreferBuiltinsSet := false;
     preferBuiltins := true;
     rootDir := "/proj";
     jail := None;
     only := None;
     extensions := DEFAULT_EXTS;
     modulesOnly := false |}.

(** Browser mode together with the allow-list [['pkg']]: the options
    [{ browser: true, only: ['pkg'] }] and their plugin. *)
Definition browserOnlyOptions : options :=
  {| o_mainFields := None; o_module := None; o_main := None; o_jsnext := None;
     o_browser := true; o_dedupe := None; o_preferBuiltins := None;
     o_rootDir := None; o_jail := None; o_only := Some [OnlyString "pkg"];
     o_skip := false; o_extensions := None; o_modulesOnly := false |}.

Definition browserOnlyPlugin : plugin :=
  {| mainFields := ["browser"; "module"; "main"];
     useBrowserOverrides := true;
     dedupe := DedupeList [];
     isPreferBuiltinsSet := false;
     preferBuiltins := true;
     rootDir := "/proj";
     jail := None;
     only := Some [onlyTest (OnlyString "pkg")];
     extensions := DEFAULT_EXTS;
     modulesOnly := false |}.

Definition missingError (file : string) : error :=
  Error "ENOENT" ("ENOENT: no such file or directory, stat '" +:+ file +:+ "'").

(** A file system in which [/locked] cannot be read, [/gone] does not exist
    and every other path is a regular file. *)
Definition lockedFs : ProbeCache.fileSystem :=
  {| ProbeCache.stat := fun file =>
       if (file =? "/locked")%string then Rejected (accessError file)
       else if (file =? "/gone")%string then Rejected (missingError file)
       else Fulfilled (ProbeCache.Stats true false);
     ProbeCache.readFile := fun file => Fulfilled "" |}.

(** The same after the permissions have been repaired. *)
Definition repairedFs : ProbeCache.fileSystem :=
  {| ProbeCache.stat := fun file =>
       if (file =? "/gone")%string then Rejected (missingError file)
       else Fulfilled (ProbeCache.Stats true false);
     ProbeCache.readFile := fun file => Fulfilled "" |}.

End Demo.

(** ** Predicates used to state further properties *)

(** The string contains a character of the class [sep]. *)
Fixpoint hasSep (sep : ascii -> bool) (s : string) : bool :=
  match s with
  | EmptyString => false
  | String c s' => sep c || hasSep sep s'
  end.

(** ** More of the small world *)

Module Fixtures.

(** The plugin of the options [{ dedupe: ['react'] }]. *)
Definition dedupePlugin : plugin :=
  {| mainFields := ["module"; "main"];
     useBrowserOverrides := false;
     dedupe := DedupeList ["react"];
     isPreferBuiltinsSet := false;
     preferBuiltins := true;
     rootDir := "/proj";
     jail := None;
     only := None;
     extensions := DEFAULT_EXTS;
     modulesOnly := false |}.

(** The environment of [Demo.envOf], but with [node_modules/pkg] a symbolic
    link to [/store/pkg]. *)
Definition linkedEnv (table : string -> string -> list (manifest * string) * settled string)
  : env :=
  {| dirname := Demo.posixDirname;
     resolve := Demo.posixResolve;
     normalize := Demo.normalizeAbsolute;
     extname := Demo.posixExtname;
     cwd := "/proj";
     realpathSync := fun p =>
       if (p =? Demo.pkgPath)%string then "/store/pkg/package.json" else p;
     existsAsync := fun p => startsWith p "/";
     realpathAsync := fun p =>
       if (p =? "/proj/node_modules/pkg/index.js")%string
       then Fulfilled "/store/pkg/index.js" else Fulfilled p;
     readFileAsync := fun _ => Fulfilled "export default 1;";
     builtinList := ["assert"; "events"; "fs"; "path"; "util"];
     resolveLib := fun file basedir _ => table file basedir;
     isModule := fun _ => true;
     createFilter := fun _ _ _ => true |}.

(** A manifest with the three usual entry fields. *)
Definition dualManifest : manifest :=
  {[ "main" := JString "lib/index.cjs"; "module" := JString "esm/index.js";
     "browser" := JString "dist/browser.js" ]}.

(** The variables of a request after [packageFilter] has seen
    [Demo.browserManifest]. *)
Definition browserRequest : request :=
  {| hasModuleSideEffects := AlwaysNull;
     hasPackageEntry := true;
     packageBrowserField := Some {[ "foo" := BFalse ]};
     packageInfo := None |}.

(** [/a/b/main.js] imports [./lib/x.js], a file below [/a/b]. *)
Definition insideJail (file basedir : string) : list (manifest * string) * settled string :=
  if (file =? "./lib/x.js")%string && (basedir =? "/a/b")%string
  then ([], Fulfilled "/a/b/lib/x.js")
  else ([], Rejected (Demo.notFoundError file)).

(** The plugin of the options [{ modulesOnly: true }]. *)
Definition modulesOnlyPlugin : plugin :=
  {| mainFields := ["module"; "main"];
     useBrowserOverrides := false;
     dedupe := DedupeList [];
     isPreferBuiltinsSet := false;
     preferBuiltins := true;
     rootDir := "/proj";
     jail := None;
     only := None;
     extensions := DEFAULT_EXTS;
     modulesOnly := true |}.

(** The options [{ browser: true, mainFields: ['module'] }]. *)
Definition browserModuleOptions : options :=
  {| o_mainFields := Some ["module"]; o_module := None; o_main := None;
     o_jsnext := None; o_browser := true; o_dedupe := None;
     o_preferBuiltins := None; o_rootDir := None; o_jail := None;
     o_only := None; o_skip := false; o_extensions := None;
     o_modulesOnly := false |}.

(** A manifest that declares its modules free of side effects. *)
Definition pureManifest : manifest :=
  {[ "module" := JString "esm/index.js"; "sideEffects" := JBool false ]}.

(** A manifest whose [main] is no string. *)
Definition brokenManifest : manifest := {[ "main" := JBool true ]}.

End Fixtures.

(** ** The key of a recorded browser map *)

(** Lines 411 to 419: the path under which the first [then] records the
    browser map of the package that was found: the resolved path, or its
    replacement when the map has a truthy one. *)
Definition browserMapKey (field : browserMap) (path : string) : string :=
  match field !! path with
  | Some (BStr replacement) => if truthyStr replacement then replacement else path
  | _ => path
  end.

(** ** An invariant of the manifest cache *)

(** Every manifest in the cache has a package entry. *)
Definition entriesCached (st : state) : Prop :=
  map_Forall (fun _ info => i_hasPackageEntry info = true) (packageInfoCache st).

(** ** What a probe cache holds *)

(** The first fulfilled result of the primitive among the probes of [key],
    if there is one. *)
Fixpoint firstFulfilled {A : Type} (fn : string -> ProbeCache.fileSystem -> settled A)
    (key : string) (probes : list (string * ProbeCache.fileSystem)) : option (settled A) :=
  match probes with
  | [] => None
  | (param, fs) :: rest =>
      if (param =? key)%string
      then
        match fn param fs with
        | Fulfilled v => Some (Fulfilled v)
        | Rejected _ => firstFulfilled fn key rest
        end
      else firstFulfilled fn key rest
  end.

(** * Part II: properties *)

(** ** The fallback orchestrator *)

Section OrchestratorLoop.

Context {W : Type}.
Variable f : string -> W -> settled string * W.

Lemma foldl_loopBody_tryEach (tried rest : list string) p (w : W) :
  foldl (fun st i => loopBody f (tried ++ rest) i st) (p, w)
        (seq (length tried) (length rest))
  = tryEach f rest p w.
Proof.
  revert tried p w. induction rest as [|spec rest IH]; intros tried p w.
  - reflexivity.
  - cbn [length seq foldl tryEach].
    unfold loopBody at 2.
    rewrite (list_lookup_middle tried rest spec (length tried) eq_refl).
    destruct (thenAttempt f (Some spec) p w) as [p1 w1].
    replace (tried ++ spec :: rest) with ((tried ++ [spec]) ++ rest)
      by (rewrite <- app_assoc; reflexivity).
    replace (S (length tried)) with (length (tried ++ [spec]))
      by (rewrite length_app; simpl; lia).
    destruct rest as [|spec' rest'].
    + rewrite bool_decide_eq_false_2 by (rewrite !length_app; simpl; lia).
      apply IH.
    + rewrite bool_decide_eq_true_2 by (rewrite !length_app; simpl; lia).
      apply IH.
Qed.

Lemma resolveImportSpecifiers_tryEach l (w : W) :
  resolveImportSpecifiers f l w = tryEach f l (Fulfilled None) w.
Proof. apply (foldl_loopBody_tryEach [] l). Qed.

(** Once a truthy value is there, no further attempt is made. *)
Lemma tryEach_resolved l v (w : W) :
  truthy v = true -> tryEach f l (Fulfilled v) w = (Fulfilled v, w).
Proof.
  intros Hv. revert w. induction l as [|spec rest IH]; intros w; [reflexivity|].
  cbn [tryEach thenAttempt]. rewrite Hv.
  destruct rest; [reflexivity|]. cbn [catchNotFound]. apply IH.
Qed.

(** A failure other than MODULE_NOT_FOUND passes through every later
    [then] and [catch]. *)
Lemma tryEach_fault l err (w : W) :
  code err <> "MODULE_NOT_FOUND" ->
  tryEach f l (Rejected err) w = (Rejected err, w).
Proof.
  intros Hcode. revert w. induction l as [|spec rest IH]; intros w; [reflexivity|].
  cbn [tryEach thenAttempt].
  destruct rest; [reflexivity|]. cbn [catchNotFound].
  destruct (String.eqb_spec (code err) "MODULE_NOT_FOUND") as [Heq|_]; [contradiction|].
  apply IH.
Qed.

End OrchestratorLoop.

Section OrchestratorRuns.

Context {W : Type}.
Variable f : string -> W -> settled string * W.

(** The log only records: without it the loop settles the same way and
    leaves the same state. *)
Lemma tryEach_logged l p log (w : W) :
  tryEach f l p w
  = (fst (tryEach (logged f) l p (log, w)),
     snd (snd (tryEach (logged f) l p (log, w)))).
Proof.
  revert p log w. induction l as [|spec rest IH]; intros p log w; [reflexivity|].
  cbn [tryEach]. destruct p as [v|err]; cbn [thenAttempt].
  - destruct (truthy v); [apply IH|].
    unfold logged at 1 3. destruct (f spec w) as [[path|err] w']; apply IH.
  - apply IH.
Qed.

(** Every run of the loop from a value that is not truthy is a run of
    [searches], and its attempts are appended to the log. *)
Lemma tryEach_searches l v log0 (w : W) :
  l <> [] ->
  truthy v = false ->
  exists p log w',
    tryEach (logged f) l (Fulfilled v) (log0, w) = (p, (log0 ++ log, w'))
    /\ searches f l w p log w'.
Proof.
  revert v log0 w. induction l as [|file rest IH]; intros v log0 w Hne Hv; [done|].
  cbn [tryEach thenAttempt]. rewrite Hv. unfold logged at 1.
  destruct (f file w) as [r w'] eqn:Hf.
  destruct rest as [|next rest].
  - destruct r as [path|err]; cbn [tryEach].
    + destruct (truthyStr path) eqn:Hpath.
      * eexists _, _, _. split; [reflexivity|]. by apply search_found.
      * eexists _, _, _. split; [reflexivity|]. by apply search_last_empty.
    + eexists _, _, _. split; [reflexivity|]. by apply search_last_failed.
  - destruct r as [path|err]; cbn [catchNotFound].
    + destruct (truthyStr path) eqn:Hpath.
      * rewrite (tryEach_resolved (logged f)) by done.
        eexists _, _, _. split; [reflexivity|]. by apply search_found.
      * destruct (IH (Some path) (log0 ++ [(file, Fulfilled path)]) w')
          as (p & log & w'' & Hrun & Hs); [done|done|].
        rewrite Hrun, <- app_assoc. eexists _, _, _. split; [reflexivity|].
        eapply search_next; [exact Hf| |exact Hs]. right. eauto.
    + destruct (String.eqb_spec (code err) "MODULE_NOT_FOUND") as [Hcode|Hcode].
      * destruct (IH None (log0 ++ [(file, Rejected err)]) w')
          as (p & log & w'' & Hrun & Hs); [done|done|].
        rewrite Hrun, <- app_assoc. eexists _, _, _. split; [reflexivity|].
        eapply search_next; [exact Hf| |exact Hs]. left. eexists. eauto.
      * rewrite (tryEach_fault (logged f)) by done.
        eexists _, _, _. split; [reflexivity|]. by apply search_fault.
Qed.

(** The attempts follow the list of candidates. *)
Lemma searches_prefix l (w : W) p log w' :
  searches f l w p log w' -> exists rest, l = map fst log ++ rest.
Proof.
  induction 1 as [file rest| | |file next rest|file next rest w r w' p log w'' Hf Hr Hs [rest' IH]];
    simpl.
  - by exists rest.
  - by exists [].
  - by exists [].
  - by exists (next :: rest).
  - exists rest'. by rewrite <- IH.
Qed.

(** Each attempt runs in the state the one before it left. *)
Lemma searches_replay l (w : W) p log w' :
  searches f l w p log w' -> log = replay f (map fst log) w.
Proof.
  induction 1 as [file rest w path w' Hf| file w err w' Hf| file w path w' Hf
                 |file next rest w err w' Hf|file next rest w r w' p log w'' Hf Hr Hs IH];
    simpl; rewrite Hf; try reflexivity.
  by rewrite <- IH.
Qed.

(** A module path ends the search and is its result. *)
Lemma searches_found l (w : W) p log w' pre file r path post :
  searches f l w p log w' ->
  log = pre ++ (file, r) :: post ->
  resolvedTo r path ->
  post = [] /\ p = Fulfilled (Some path).
Proof.
  intros Hs. revert pre.
  induction Hs as [file' rest w path' w' Hf Hp| file' w err w' Hf| file' w path' w' Hf Hp
                  |file' next rest w err w' Hf Hc|file' next rest w r' w' p log w'' Hf Hr Hs IH];
    intros pre Hlog [Hres Htruthy]; subst r.
  - destruct pre as [|? [|? pre]]; simplify_eq/=. done.
  - destruct pre as [|? [|? pre]]; simplify_eq/=.
  - destruct pre as [|? [|? pre]]; simplify_eq/=. congruence.
  - destruct pre as [|? [|? pre]]; simplify_eq/=.
  - destruct pre as [|a pre]; simplify_eq/=.
    + destruct Hr as [(e & He & _)|(path' & Hp' & Hfalse)]; simplify_eq. congruence.
    + eapply IH; [reflexivity|done].
Qed.

(** When every candidate was attempted and failed, the last failure is the
    outcome. *)
Lemma searches_all_failed l (w : W) p log w' :
  searches f l w p log w' ->
  map fst log = l ->
  Forall (fun a => failed (snd a)) log ->
  exists file err, last log = Some (file, Rejected err) /\ p = Rejected err.
Proof.
  induction 1 as [file' rest w path' w' Hf Hp| file' w err w' Hf| file' w path' w' Hf Hp
                 |file' next rest w err w' Hf Hc|file' next rest w r' w' p log w'' Hf Hr Hs IH];
    intros Hall Hfail.
  - apply Forall_cons in Hfail as [[e He] _]. done.
  - eauto.
  - apply Forall_cons in Hfail as [[e He] _]. done.
  - simplify_eq/=.
  - simplify_eq/=. apply Forall_cons in Hfail as [_ Hfail].
    destruct (IH Hall Hfail) as (file & err & Hlast & Hp).
    exists file, err. split; [|done].
    destruct log as [|a log]; [done|exact Hlast].
Qed.

(** A failure other than MODULE_NOT_FOUND ends the search and is its
    outcome, whichever candidate it comes from. *)
Lemma searches_fault l (w : W) p log w' pre file err post :
  searches f l w p log w' ->
  log = pre ++ (file, Rejected err) :: post ->
  code err <> "MODULE_NOT_FOUND" ->
  post = [] /\ p = Rejected err.
Proof.
  intros Hs. revert pre.
  induction Hs as [file' rest w path' w' Hf Hp| file' w err' w' Hf| file' w path' w' Hf Hp
                  |file' next rest w err' w' Hf Hc|file' next rest w r' w' p log w'' Hf Hr Hs IH];
    intros pre Hlog Hcode.
  - destruct pre as [|? [|? pre]]; simplify_eq/=.
  - destruct pre as [|? [|? pre]]; simplify_eq/=; done.
  - destruct pre as [|? [|? pre]]; simplify_eq/=.
  - destruct pre as [|? [|? pre]]; simplify_eq/=; done.
  - destruct pre as [|a pre]; simplify_eq/=.
    + destruct Hr as [(e & He & Hnf)|(path' & Hp' & _)]; simplify_eq.
    + by eapply IH.
Qed.

(** A run makes at least one attempt. *)
Lemma searches_attempts l (w : W) p log w' : searches f l w p log w' -> log <> [].
Proof. by destruct 1. Qed.

(** After an attempt that is passed over - a MODULE_NOT_FOUND failure or a
    value that is not truthy - of a candidate that is not the last, the next
    candidate is attempted. *)
Lemma searches_passed_over l (w : W) p log w' pre file r post :
  searches f l w p log w' ->
  log = pre ++ (file, r) :: post ->
  passedOver r ->
  length pre + 1 < length l ->
  exists next r' post', post = (next, r') :: post' /\ l !! (length pre + 1) = Some next.
Proof.
  intros Hs. revert pre.
  induction Hs as [file' rest w path' w' Hf Hp| file' w err w' Hf| file' w path' w' Hf Hp
                  |file' next rest w err w' Hf Hc|file' next rest w r' w' p log w'' Hf Hr Hs IH];
    intros pre Hlog Hpassed Hlen.
  - destruct pre as [|? [|? pre]]; simplify_eq/=.
    destruct Hpassed as [(e & He & _)|(path & Hpath & Hfalse)]; simplify_eq. congruence.
  - destruct pre as [|? [|? pre]]; simplify_eq/=; lia.
  - destruct pre as [|? [|? pre]]; simplify_eq/=; lia.
  - destruct pre as [|? [|? pre]]; simplify_eq/=.
    destruct Hpassed as [(e & He & Hcode)|(path & Hpath & _)]; simplify_eq.
  - destruct pre as [|a pre]; simplify_eq/=.
    + inversion Hs; subst; eexists _, _, _; (split; [reflexivity|reflexivity]).
    + destruct (IH pre eq_refl Hpassed) as (next' & r'' & post' & Hpost & Hnext); [lia|].
      exists next', r'', post'. split; [done|].
      replace (length pre + 1) with (S (length pre)) in * by lia. exact Hnext.
Qed.

(** When every candidate was attempted, the way the last attempt settled is
    the outcome. *)
Lemma searches_exhausted l (w : W) p log w' file r :
  searches f l w p log w' ->
  map fst log = l ->
  last log = Some (file, r) ->
  p = match r with
      | Fulfilled path => Fulfilled (Some path)
      | Rejected err => Rejected err
      end.
Proof.
  induction 1 as [file' rest w path' w' Hf Hp| file' w err w' Hf| file' w path' w' Hf Hp
                 |file' next rest w err w' Hf Hc|file' next rest w r' w' p log w'' Hf Hr Hs IH];
    intros Hall Hlast.
  - by simplify_eq/=.
  - by simplify_eq/=.
  - by simplify_eq/=.
  - simplify_eq/=.
  - simplify_eq/=. apply IH; [done|].
    destruct log as [|a log]; [by apply searches_attempts in Hs|exact Hlast].
Qed.

End OrchestratorRuns.

(** C1, as the code has it.  The candidates are attempted in list order,
    one at a time, each in the state the one before it left (the log of
    attempts follows the list and replays sequentially), and the first
    candidate is always attempted.  An attempt that settles to a module
    path is the last attempt made and its path is the result.  After an
    attempt that is passed over - a MODULE_NOT_FOUND failure, or a value
    that is not truthy - of a candidate that is not the last, the next
    candidate is attempted.  A failure with any other code is the last
    attempt made and is the outcome, whichever candidate it comes from.
    When every candidate has been attempted, the outcome is what the last
    attempt settled to: its failure, if it failed. *)
Theorem resolveImportSpecifiers_first_success_last_failure
    {W : Type} (f : string -> W -> settled string * W) (l : list string) (w : W) :
  let run := resolveImportSpecifiers (logged f) l ([], w) in
  let p := fst run in
  let log := fst (snd run) in
  resolveImportSpecifiers f l w = (p, snd (snd run))
  /\ (exists rest, l = map fst log ++ rest)
  /\ log = replay f (map fst log) w
  /\ (l <> [] -> log <> [])
  /\ (l = [] -> p = Fulfilled None)
  /\ (forall pre file r path post,
        log = pre ++ (file, r) :: post -> resolvedTo r path ->
        post = [] /\ p = Fulfilled (Some path))
  /\ (forall pre file r post,
        log = pre ++ (file, r) :: post -> passedOver r ->
        length pre + 1 < length l ->
        exists next r' post',
          post = (next, r') :: post' /\ l !! (length pre + 1) = Some next)
  /\ (forall pre file err post,
        log = pre ++ (file, Rejected err) :: post -> code err <> "MODULE_NOT_FOUND" ->
        post = [] /\ p = Rejected err)
  /\ (map fst log = l ->
      forall file r,
        last log = Some (file, r) ->
        p = match r with
            | Fulfilled path => Fulfilled (Some path)
            | Rejected err => Rejected err
            end)
  /\ (l <> [] -> map fst log = l -> Forall (fun a => failed (snd a)) log ->
      exists file err, last log = Some (file, Rejected err) /\ p = Rejected err).
Proof.
  intros run p log. subst p log run.
  rewrite !resolveImportSpecifiers_tryEach.
  split; [apply tryEach_logged|].
  destruct l as [|file rest].
  - simpl. split; [by exists []|]. do 3 (split; [done|]).
    split; [intros [|? ?] ? ? ? ? Hlog; discriminate Hlog|].
    split; [intros [|? ?] ? ? ? Hlog; discriminate Hlog|].
    split; [intros [|? ?] ? ? ? Hlog; discriminate Hlog|].
    split; [intros _ ? ? Hlast; discriminate Hlast|done].
  - destruct (tryEach_searches f (file :: rest) None [] w) as (p & log & w' & Hrun & Hs);
      [done|done|].
    rewrite Hrun. simpl fst.
    split; [by eapply searches_prefix|].
    split; [by eapply searches_replay|].
    split; [intros _; by eapply searches_attempts|].
    split; [done|].
    split; [intros; by eapply searches_found|].
    split; [intros; by eapply searches_passed_over|].
    split; [intros; by eapply searches_fault|].
    split; [intros; by eapply searches_exhausted|].
    intros _. by eapply searches_all_failed.
Qed.

(** Two candidates that both fail, the first with a permission failure:
    the outcome is the failure of the first, not that of the last, which is
    never attempted. *)
Lemma first_failure_is_the_outcome :
  let f (file : string) (w : unit) :=
    if (file =? "./a")%string
    then (Rejected (Demo.accessError "/proj/a"), w)
    else (Rejected (Demo.notFoundError file), w) in
  let run := resolveImportSpecifiers (logged f) ["./a"; "a"] ([], tt) in
  fst (f "./a" tt) = Rejected (Demo.accessError "/proj/a")
  /\ fst (f "a" tt) = Rejected (Demo.notFoundError "a")
  /\ fst (resolveImportSpecifiers f ["./a"; "a"] tt) = Rejected (Demo.accessError "/proj/a")
  /\ fst (snd run) = [("./a", Rejected (Demo.accessError "/proj/a"))]
  /\ Demo.accessError "/proj/a" <> Demo.notFoundError "a".
Proof. repeat split; try (vm_compute; reflexivity). discriminate. Qed.

(** ** The probe cache *)

Section ProbeCacheProperties.

Import ProbeCache.

Context {A : Type}.
Variable fn : string -> fileSystem -> settled A.

(** A probe of a path that is not in the cache runs the primitive; a
    rejection leaves the path out of the cache. *)
Lemma wrapped_miss param fs (cache : gmap string (settled A)) :
  cache !! param = None ->
  fst (wrapped fn param fs cache) = fn param fs
  /\ snd (wrapped fn param fs cache) !! param
     = match fn param fs with
       | Fulfilled v => Some (Fulfilled v)
       | Rejected _ => None
       end.
Proof.
  intros Hmiss. unfold wrapped. rewrite Hmiss. simpl. split; [done|].
  destruct (fn param fs).
  - apply lookup_insert_eq.
  - apply lookup_delete_eq.
Qed.

(** A probe of a path that is in the cache does not run the primitive. *)
Lemma wrapped_hit param fs (cache : gmap string (settled A)) p :
  cache !! param = Some p -> wrapped fn param fs cache = (p, cache).
Proof. intros Hhit. unfold wrapped. by rewrite Hhit. Qed.

(** No probe removes a memoized result. *)
Lemma wrapped_keeps param fs (cache : gmap string (settled A)) path v :
  cache !! path = Some (Fulfilled v) ->
  snd (wrapped fn param fs cache) !! path = Some (Fulfilled v).
Proof.
  intros Hpath. unfold wrapped.
  destruct (cache !! param) as [p|] eqn:Hparam; [done|]. simpl.
  assert (param <> path) as Hne by congruence.
  destruct (fn param fs).
  - by rewrite lookup_insert_ne.
  - by rewrite lookup_delete_ne, lookup_insert_ne.
Qed.

Lemma probeAll_keeps later (cache : gmap string (settled A)) path v :
  cache !! path = Some (Fulfilled v) ->
  probeAll fn later cache !! path = Some (Fulfilled v).
Proof.
  revert cache. induction later as [|[param fs] later IH]; intros cache Hpath; [done|].
  apply IH. by apply wrapped_keeps.
Qed.

(** The policy of [cache(fn)] for a probe that misses: the primitive runs;
    a rejection is handed on and not kept, so that the next probe runs the
    primitive again; a fulfilled value is kept through all later probes and
    is gone after [clear]. *)
Lemma wrapped_policy param fs (cache : gmap string (settled A)) :
  cache !! param = None ->
  let r := fst (wrapped fn param fs cache) in
  let cache' := snd (wrapped fn param fs cache) in
  r = fn param fs
  /\ (forall err, r = Rejected err ->
        cache' !! param = None
        /\ forall fs', fst (wrapped fn param fs' cache') = fn param fs')
  /\ (forall v, r = Fulfilled v ->
        forall later fs',
          fst (wrapped fn param fs' (probeAll fn later cache')) = Fulfilled v)
  /\ (forall later fs',
        fst (wrapped fn param fs' (clear (probeAll fn later cache'))) = fn param fs').
Proof.
  intros Hmiss r cache'. subst r cache'.
  destruct (wrapped_miss param fs cache Hmiss) as [Hr Hcache].
  split; [done|]. split; [|split].
  - intros err Herr. rewrite Hr in Herr. rewrite Herr in Hcache.
    split; [done|]. intros fs'. by apply wrapped_miss.
  - intros v Hv later fs'. rewrite Hr in Hv. rewrite Hv in Hcache.
    rewrite (wrapped_hit param fs' _ (Fulfilled v)); [done|].
    by apply probeAll_keeps.
  - intros later fs'. by apply wrapped_miss.
Qed.

End ProbeCacheProperties.

(** C3.  For the is-file and the is-directory probe of a path that the cache
    does not hold: an ENOENT failure of [stat] yields [false]; every other
    failure of [stat] is handed to the prober and leaves no cache entry, so
    that the next probe of the path runs [stat] again, on the file system as
    it is then; and a fulfilled result - the answer of [stat], or the
    [false] of ENOENT - is served to every later probe of the path, whatever
    other probes come between and however the file system changes, until
    [clear] empties the cache. *)
Theorem stat_probe_cache_policy
    (probe : string -> ProbeCache.fileSystem -> gmap string (settled bool)
             -> settled bool * gmap string (settled bool))
    (fn : string -> ProbeCache.fileSystem -> settled bool)
    (answer : ProbeCache.stats -> bool)
    (file : string) (fs : ProbeCache.fileSystem) (cache : gmap string (settled bool)) :
  (probe, fn, answer) = (ProbeCache.isFileCached, ProbeCache.isFileProbe, ProbeCache.isFile)
  \/ (probe, fn, answer) = (ProbeCache.isDirCached, ProbeCache.isDirProbe, ProbeCache.isDirectory) ->
  cache !! file = None ->
  let r := fst (probe file fs cache) in
  let cache' := snd (probe file fs cache) in
  (forall st, ProbeCache.stat fs file = Fulfilled st -> r = Fulfilled (answer st))
  /\ (forall err, ProbeCache.stat fs file = Rejected err -> code err = "ENOENT" ->
        r = Fulfilled false)
  /\ (forall err, ProbeCache.stat fs file = Rejected err -> code err <> "ENOENT" ->
        r = Rejected err
        /\ cache' !! file = None
        /\ forall fs', fst (probe file fs' cache') = fn file fs')
  /\ (forall v, r = Fulfilled v ->
        forall later fs',
          fst (probe file fs' (ProbeCache.probeAll fn later cache')) = Fulfilled v)
  /\ (forall later fs',
        fst (probe file fs' (ProbeCache.clear (ProbeCache.probeAll fn later cache')))
        = fn file fs').
Proof.
  intros Hprobe Hmiss r cache'. subst r cache'.
  assert (probe = ProbeCache.wrapped fn
          /\ forall fs, fn file fs
               = ProbeCache.then2 (ProbeCache.stat fs file)
                   (fun st => Fulfilled (answer st)) ProbeCache.ignoreENOENT)
    as [-> Hfn] by (destruct Hprobe as [[= -> -> ->]|[= -> -> ->]]; done).
  destruct (wrapped_policy fn file fs cache Hmiss) as (Hr & Hrej & Hful & Hclear).
  rewrite Hfn in Hr.
  split; [|split; [|split; [|split]]].
  - intros st Hst. by rewrite Hr, Hst.
  - intros err Herr Hcode. rewrite Hr, Herr. simpl.
    unfold ProbeCache.ignoreENOENT. by rewrite Hcode.
  - intros err Herr Hcode.
    assert (fst (ProbeCache.wrapped fn file fs cache) = Rejected err) as Hrejected.
    { rewrite Hr, Herr. simpl. unfold ProbeCache.ignoreENOENT.
      by destruct (String.eqb_spec (code err) "ENOENT"). }
    split; [done|]. exact (Hrej err Hrejected).
  - exact Hful.
  - exact Hclear.
Qed.

Lemma stat_probe_cache_policy_witness :
  (∅ : gmap string (settled bool)) !! "/locked" = None
  /\ fst (ProbeCache.isFileCached "/locked" Demo.lockedFs ∅)
     = Rejected (Demo.accessError "/locked")
  /\ fst (ProbeCache.isFileCached "/locked" Demo.repairedFs
            (snd (ProbeCache.isFileCached "/locked" Demo.lockedFs ∅)))
     = Fulfilled true.
Proof.
  split; [reflexivity|].
  destruct (stat_probe_cache_policy
              ProbeCache.isFileCached ProbeCache.isFileProbe ProbeCache.isFile
              "/locked" Demo.lockedFs ∅ (or_introl eq_refl) (lookup_empty _))
    as (_ & _ & Hfault & _).
  destruct (Hfault (Demo.accessError "/locked") eq_refl) as (Hr & _ & Hagain);
    [discriminate|].
  split; [exact Hr|]. rewrite Hagain. reflexivity.
Defined.

(** ** Virtual ids *)

(** The plugins of the small world are what [nodeResolve] makes of their
    options. *)
Lemma nodeResolve_demo table :
  let e := Demo.envOf table in
  nodeResolve e Demo.defaultOptions = inr Demo.defaultPlugin
  /\ nodeResolve e Demo.jailedOptions = inr Demo.jailedPlugin
  /\ nodeResolve e Demo.onlyAllowedOptions = inr Demo.onlyAllowedPlugin
  /\ nodeResolve e Demo.browserOptions = inr Demo.browserPlugin
  /\ nodeResolve e Demo.moduleOnlyOptions = inr Demo.moduleOnlyPlugin
  /\ nodeResolve e Demo.browserOnlyOptions = inr Demo.browserOnlyPlugin.
Proof. repeat split. Qed.

(** C10.  An importee that contains the null character and is not the
    empty-stub id is left to other plugins: [resolveId] returns [null] and
    changes nothing, whatever the importer, the options and the state. *)
Theorem resolveId_ignores_nul_ids pl e importee importer st :
  hasNul importee = true ->
  importee <> ES6_BROWSER_EMPTY ->
  resolveId pl e importee importer st = (Returns RNull, st).
Proof.
  intros Hnul Hstub. unfold resolveId, browserStage.
  destruct (String.eqb_spec importee ES6_BROWSER_EMPTY) as [Heq|_]; [contradiction|].
  by rewrite Hnul.
Qed.

Lemma resolveId_ignores_nul_ids_witness :
  hasNul (String "000"%char "commonjs-proxy:/proj/a.js") = true
  /\ String "000"%char "commonjs-proxy:/proj/a.js" <> ES6_BROWSER_EMPTY
  /\ resolveId Demo.defaultPlugin (Demo.envOf Demo.nothingThere)
       (String "000"%char "commonjs-proxy:/proj/a.js") (Some "/proj/src/main.js")
       Demo.emptyState
     = (Returns RNull, Demo.emptyState).
Proof.
  split; [reflexivity|]. split; [discriminate|].
  apply resolveId_ignores_nul_ids; [reflexivity|discriminate].
Defined.

(** A path without a null character is not the stub id. *)
Lemma hasNul_stub : hasNul ES6_BROWSER_EMPTY = true.
Proof. reflexivity. Qed.

Lemma stub_has_nul importee : hasNul importee = false -> (importee =? ES6_BROWSER_EMPTY)%string = false.
Proof.
  intros Hnul. destruct (String.eqb_spec importee ES6_BROWSER_EMPTY) as [->|]; [|done].
  by rewrite hasNul_stub in Hnul.
Qed.

Lemma orP_truthy a b : truthyP a = true -> orP a b = a.
Proof. unfold orP. by intros ->. Qed.

(** A key of the map's own is read as it is. *)
Lemma readProperty_own (browser : browserMap) key v :
  browser !! key = Some v -> readProperty browser key = Some (Own v).
Proof. unfold readProperty. by intros ->. Qed.

(** Browser mode: [options.browser] puts ['browser'] among the main
    fields. *)
Lemma nodeResolve_browser e o pl :
  nodeResolve e o = inr pl -> o_browser o = true -> useBrowserOverrides pl = true.
Proof.
  unfold nodeResolve, getMainFields. intros Hpl Hbrowser. rewrite Hbrowser in Hpl.
  destruct (match o_mainFields o with Some _ => _ | None => _ end) as [err|fields];
    [done|].
  simpl in Hpl.
  destruct (includes fields "browser") eqn:Hin; simpl in Hpl.
  - destruct fields; [done|]. destruct (o_skip o); [done|]. by simplify_eq/=.
  - destruct (o_skip o); [done|]. by simplify_eq/=.
Qed.

(** C8.  The empty-stub id is the constant ["\0node-resolve:empty.js"],
    which no path without a null character equals; [resolveId] maps it to
    itself; in browser mode ([useBrowserOverrides], which [options.browser]
    switches on), a specifier that the browser map recorded for the
    importing module sends to [false] - under its own name or under its
    resolved path - resolves to the stub id; and [load] of the stub id
    returns ["export default {};"]. *)
Theorem empty_stub_id :
  ES6_BROWSER_EMPTY = String "000"%char "node-resolve:empty.js"
  /\ (forall path, hasNul path = false -> path <> ES6_BROWSER_EMPTY)
  /\ (forall pl e importer st,
        resolveId pl e ES6_BROWSER_EMPTY importer st
        = (Returns (RId ES6_BROWSER_EMPTY), st))
  /\ (forall e o pl,
        nodeResolve e o = inr pl -> o_browser o = true -> useBrowserOverrides pl = true)
  /\ (forall pl e importee importer st (browser : browserMap),
        useBrowserOverrides pl = true ->
        hasNul importee = false ->
        browserMapCache st !! importer = Some browser ->
        browser !! importee = Some BFalse
        \/ browser !! resolve e (baseDirectory pl e importee (Some importer)) importee
           = Some BFalse ->
        resolveId pl e importee (Some importer) st
        = (Returns (RId ES6_BROWSER_EMPTY), st))
  /\ load ES6_BROWSER_EMPTY = Some "export default {};".
Proof.
  split; [reflexivity|]. split; [|split; [|split; [|split]]].
  - intros path Hnul ->. by rewrite hasNul_stub in Hnul.
  - intros pl e importer st. reflexivity.
  - exact nodeResolve_browser.
  - intros pl e importee importer st browser Hbrowser Hnul Hmap Hfalse.
    unfold resolveId, browserStage.
    destruct (String.eqb_spec importee ES6_BROWSER_EMPTY) as [->|_]; [done|].
    rewrite Hnul, Hmap, Hbrowser.
    destruct Hfalse as [Hfalse|Hfalse]; rewrite (readProperty_own _ _ _ Hfalse);
      cbn [isFalseP orb]; [done|].
    by rewrite orb_true_r.
  - reflexivity.
Qed.

(** ** The candidates of a request *)

Lemma string_length_append (s t : string) :
  String.length (s +:+ t) = String.length s + String.length t.
Proof. induction s as [|c s IH]; simpl; [done|]. by rewrite IH. Qed.

(** Without an importer, the shorthand candidate is left out only for an
    importee whose first character is a slash: the pattern
    [/^\.?\.?\//] is matched against [importee[0]] alone. *)
Lemma importSpecifierList_shorthand pl e c rest :
  exists tail,
    importSpecifierList pl e (String c rest) None
    = inr ((if Ascii.eqb c "/"%char then [] else ["./" +:+ String c rest]) ++ tail)
    /\ last tail = Some (String c rest)
    /\ ~ In ("./" +:+ String c rest) tail.
Proof.
  unfold importSpecifierList. cbn [charAt0].
  assert (matchesDotsSlash (String c "") = Ascii.eqb c "/"%char) as ->.
  { unfold matchesDotsSlash, startsWith. cbn [String.prefix].
    destruct (Ascii.eqb_spec c "/"%char) as [->|Hc]; [reflexivity|].
    destruct (ascii_dec "/" c) as [<-|_]; [done|].
    destruct (ascii_dec "." c) as [<-|_]; reflexivity. }
  eexists. split; [destruct (Ascii.eqb c "/"%char); reflexivity|].
  assert ("./" +:+ String c rest <> String c rest) as Hne.
  { intros Heq. apply (f_equal String.length) in Heq. simpl in Heq. lia. }
  assert ("./" +:+ String c rest <> String c rest +:+ "/") as Hne'.
  { intros Heq. apply (f_equal String.length) in Heq.
    rewrite !string_length_append in Heq. simpl in Heq. lia. }
  destruct (_ && _); cbn; (split; [done|]); intros H; intuition congruence.
Qed.

(** C7.  The candidates of a request without importer whose importee starts
    with a dot: [./<importee>] comes first also then.  For [./foo] the list
    is [././foo], [./foo]; for [../foo] it is [./../foo], [../foo]; only an
    importee that starts with a slash gets no extra candidate. *)
Theorem importSpecifierList_root_relative :
  importSpecifierList Demo.defaultPlugin (Demo.envOf Demo.nothingThere) "./foo" None
  = inr ["././foo"; "./foo"]
  /\ importSpecifierList Demo.defaultPlugin (Demo.envOf Demo.nothingThere) "../foo" None
     = inr ["./../foo"; "../foo"]
  /\ importSpecifierList Demo.defaultPlugin (Demo.envOf Demo.nothingThere) "/foo" None
     = inr ["/foo"]
  /\ (forall pl e rest, exists tail,
        importSpecifierList pl e (String "."%char rest) None
        = inr (("./" +:+ String "."%char rest) :: tail)).
Proof.
  split; [reflexivity|]. split; [reflexivity|]. split; [reflexivity|].
  intros pl e rest.
  destruct (importSpecifierList_shorthand pl e "."%char rest) as (tail & Heq & _).
  exists tail. exact Heq.
Qed.

(** ** The end of a pass: [generateBundle] *)



(** ** Faults during a request *)



Lemma importSpecifierList_nonempty pl e importee importer specifiers :
  importSpecifierList pl e importee importer = inr specifiers ->
  exists candidates, specifiers = candidates ++ [importee].
Proof.
  unfold importSpecifierList.
  destruct (match importer with Some _ => _ | None => _ end) as [err|shorthand]; [done|].
  intros [= <-]. eexists. by rewrite app_assoc.
Qed.








(** ** The jail *)

(** What the jail test of the code is: a test on the characters the path
    starts with. *)
Lemma jailRejects_prefix pl e dir path :
  jail pl = Some dir ->
  truthyStr dir = true ->
  jailRejects pl e (Some path) = Some (negb (startsWith path (normalize e (trim dir)))).
Proof. intros Hjail Hdir. unfold jailRejects. by rewrite Hjail, Hdir. Qed.

(** With a package entry and no built-in involved, a resolved path that
    does not start with the normalised jail makes the request's policy step
    return [null]. *)
Lemma thenPolicy_jail pl e importee rq path st dir :
  hasPackageEntry rq = true ->
  isBuiltin e (Some importee) = false ->
  isBuiltin e (Some path) = false ->
  jail pl = Some dir ->
  truthyStr dir = true ->
  startsWith path (normalize e (trim dir)) = false ->
  fst (thenPolicy pl e importee rq (Some path) st) = Fulfilled RNull.
Proof.
  intros Hentry Himportee Hpath Hjail Hdir Hprefix. unfold thenPolicy.
  rewrite Hentry, Himportee, Hpath. cbn [andb].
  by rewrite (jailRejects_prefix pl e dir path Hjail Hdir), Hprefix.
Qed.

Lemma prefix_append (s t : string) : String.prefix s (s +:+ t) = true.
Proof.
  induction s as [|c s IH]; simpl; [by destruct t|].
  destruct (ascii_dec c c); [exact IH|done].
Qed.

Lemma append_empty (s : string) : s +:+ "" = s.
Proof.
  induction s as [|c s IH]; [done|].
  change (String c (s +:+ "") = String c s). by rewrite IH.
Qed.

Lemma prefix_trans (s t u : string) :
  String.prefix s t = true -> String.prefix t u = true -> String.prefix s u = true.
Proof.
  revert t u. induction s as [|c s IH]; intros t u Hst Htu; [by destruct u|].
  destruct t as [|c' t]; [done|]. destruct u as [|c'' u]; [done|].
  simpl in *.
  destruct (ascii_dec c c') as [->|]; [|done].
  destruct (ascii_dec c' c'') as [->|]; [|done].
  by eapply IH.
Qed.

(** A path inside the subtree of a jail that is written normalised passes
    the test. *)
Lemma jail_admits_subtree pl e dir path :
  jail pl = Some dir ->
  normalize e (trim dir) = dir ->
  inSubtree dir path = true ->
  jailRejects pl e (Some path) = Some false.
Proof.
  intros Hjail Hnorm Hin. unfold jailRejects. rewrite Hjail, Hnorm.
  destruct (truthyStr dir); [|done].
  unfold inSubtree in Hin. apply orb_true_iff in Hin as [Heq|Hsub].
  - apply String.eqb_eq in Heq as ->. unfold startsWith.
    rewrite <- (append_empty dir) at 2. by rewrite prefix_append.
  - unfold startsWith in *.
    by rewrite (prefix_trans dir (dir +:+ "/") path (prefix_append _ _) Hsub).
Qed.

(** C6, where the code leaves it.  With the jail [/a/b], the module
    [/a/b/main.js] imports [../bc/x.js]: the resolved path [/a/bc/x.js] lies
    outside the subtree of [/a/b], and the request returns it all the same,
    because the path starts with the characters [/a/b]. *)
Theorem jail_admits_sibling_directory :
  let e := Demo.envOf Demo.siblingFile in
  nodeResolve e Demo.jailedOptions = inr Demo.jailedPlugin
  /\ jail Demo.jailedPlugin = Some "/a/b"
  /\ normalize e (trim "/a/b") = "/a/b"
  /\ inSubtree "/a/b" "/a/bc/x.js" = false
  /\ resolveId Demo.jailedPlugin e "../bc/x.js" (Some "/a/b/main.js") Demo.emptyState
     = (Returns (RModule (Some "/a/bc/x.js") None),
        setIdToPackageInfo (Some "/a/bc/x.js") None Demo.emptyState).
Proof. repeat split; vm_compute; reflexivity. Qed.

(** ** The allow-list [only] *)

(** [split] never returns an empty array. *)
Lemma splitOn_nonempty sep s : splitOn sep s <> [].
Proof.
  destruct s as [|c s]; cbn [splitOn]; [done|].
  destruct (sep c); [done|]. by destruct (splitOn sep s).
Qed.


(** The first piece of a split starts as the string does, unless the string
    starts with a separator. *)
Lemma splitOn_first sep s first rest c :
  splitOn sep s = first :: rest ->
  firstIs first c = firstIs s c && negb (match s with
                                         | String c0 _ => sep c0
                                         | EmptyString => false
                                         end).
Proof.
  destruct s as [|c0 s]; cbn [splitOn firstIs].
  - by intros [= <- <-].
  - destruct (sep c0).
    + intros [= <- <-]. by rewrite andb_false_r.
    + destruct (splitOn sep s); intros [= <- <-]; cbn [firstIs]; by rewrite andb_true_r.
Qed.

Lemma startsWith_char s c : startsWith s (String c "") = firstIs s c.
Proof.
  destruct s as [|c0 s]; [done|]. unfold startsWith. cbn [String.prefix firstIs].
  destruct (ascii_dec c c0) as [->|Hne].
  - rewrite Ascii.eqb_refl. by destruct s.
  - symmetry. apply Ascii.eqb_neq. congruence.
Qed.






(** ** Built-in modules and local packages of the same name *)

(** What the oracle preserves, the loop preserves. *)
Lemma tryEach_invariant {W : Type} (f : string -> W -> settled string * W)
    (inv : W -> Prop) :
  (forall file w, inv w -> inv (snd (f file w))) ->
  forall l p w, inv w -> inv (snd (tryEach f l p w)).
Proof.
  intros Hf l. induction l as [|spec rest IH]; intros p w Hw; [done|].
  cbn [tryEach].
  destruct (thenAttempt f (Some spec) p w) as [p1 w1] eqn:Hattempt.
  apply IH. unfold thenAttempt in Hattempt.
  destruct p as [v|err]; [|by simplify_eq].
  destruct (truthy v); [by simplify_eq|].
  specialize (Hf spec w Hw).
  destruct (f spec w) as [[contents|err] w']; by simplify_eq.
Qed.

(** A call of [getCachedPackageInfo] leaves the state as it is or adds one
    entry to [packageInfoCache]. *)
Lemma getCachedPackageInfo_state pl e pkg pkgPath st :
  match fst (getCachedPackageInfo pl e pkg pkgPath st) with
  | inl _ => snd (getCachedPackageInfo pl e pkg pkgPath st) = st
  | inr info =>
      snd (getCachedPackageInfo pl e pkg pkgPath st) = st
      \/ (packageInfoCache st !! pkgPath = None
          /\ snd (getCachedPackageInfo pl e pkg pkgPath st)
             = setPackageInfoCache
                 (if followSymlinks st then realpathSync e pkgPath else pkgPath) info st)
  end.
Proof.
  unfold getCachedPackageInfo.
  destruct (packageInfoCache st !! pkgPath); [by left|].
  destruct (selectMainField _ _) as [[pkg' field] overridden].
  destruct (entryPoint _ _ _ _) as [err|[entry mapped]]; [done|]. by right.
Qed.

(** What holds of the state whatever is put into [packageInfoCache], the
    [packageFilter] calls of a run preserve. *)
Lemma packageFilterCalls_invariant pl e (inv : request * state -> Prop) :
  (forall w call, inv w -> inv (snd (packageFilter pl e w call))) ->
  forall calls w, inv w -> inv (packageFilterCalls pl e calls w).
Proof.
  intros Hstep calls. induction calls as [|call calls IH]; intros w Hw; [done|].
  cbn [packageFilterCalls]. specialize (Hstep w call Hw).
  destruct (packageFilter pl e w call) as [[err|pkg] w']; [done|]. by apply IH.
Qed.

Lemma getCachedPackageInfo_warnings pl e pkg pkgPath st :
  warnings (snd (getCachedPackageInfo pl e pkg pkgPath st)) = warnings st.
Proof.
  pose proof (getCachedPackageInfo_state pl e pkg pkgPath st) as Hstate.
  destruct (fst (getCachedPackageInfo pl e pkg pkgPath st)) as [err|info].
  - by rewrite Hstate.
  - by destruct Hstate as [->|[_ ->]].
Qed.

Lemma resolveIdAsync_warnings pl e basedir file w :
  warnings (snd (snd (resolveIdAsync pl e basedir file w))) = warnings (snd w).
Proof.
  unfold resolveIdAsync.
  destruct (resolveLib e file basedir (snd w)) as [calls r]. cbn [snd].
  apply (packageFilterCalls_invariant pl e
           (fun w' => warnings (snd w') = warnings (snd w))); [|done].
  intros [rq st] call Hw. unfold packageFilter.
  pose proof (getCachedPackageInfo_warnings pl e (fst call) (snd call) st) as Hcall.
  destruct (getCachedPackageInfo _ _ _ _ _) as [[err|info] st']; cbn [snd] in *; congruence.
Qed.

Lemma thenBrowserField_warnings pl e rq resolved st :
  warnings (snd (thenBrowserField pl e rq resolved st)) = warnings st.
Proof.
  unfold thenBrowserField.
  repeat match goal with
         | |- context [match ?x with _ => _ end] => destruct x; try done
         end.
Qed.

(** The search phase hands nothing to [this.warn]. *)
Lemma searchPhase_warnings pl e basedir specifiers st :
  warnings (snd (searchPhase pl e basedir specifiers st)) = warnings st.
Proof.
  unfold searchPhase. rewrite resolveImportSpecifiers_tryEach.
  pose proof (tryEach_invariant (resolveIdAsync pl e basedir)
                (fun w => warnings (snd w) = warnings st)) as Hinv.
  specialize (Hinv (fun file w Hw =>
                      eq_trans (resolveIdAsync_warnings pl e basedir file w) Hw)
                specifiers (Fulfilled None) (initialRequest, st) eq_refl).
  destruct (tryEach _ _ _ _) as [[resolved|err] [rq st1]]; simpl in *; [|done].
  pose proof (thenBrowserField_warnings pl e rq resolved st1) as Hw.
  destruct (thenBrowserField _ _ _ _ _). simpl in *. congruence.
Qed.

(** An attempt never fulfils with [undefined]. *)
Lemma thenAttempt_defined {W : Type} (f : string -> W -> settled string * W) spec p w :
  fst (thenAttempt f (Some spec) p w) <> Fulfilled None.
Proof.
  unfold thenAttempt. destruct p as [[v|]|err]; cbn [truthy]; [| |done].
  - destruct (truthyStr v); [done|]. by destruct (f spec w) as [[contents|err] w'].
  - by destruct (f spec w) as [[contents|err] w'].
Qed.

(** Over a list that is not empty, the loop never fulfils with
    [undefined]. *)
Lemma tryEach_defined {W : Type} (f : string -> W -> settled string * W) l p w :
  l <> [] -> fst (tryEach f l p w) <> Fulfilled None.
Proof.
  revert p w. induction l as [|spec rest IH]; intros p w Hne; [done|].
  cbn [tryEach]. pose proof (thenAttempt_defined f spec p w) as Hattempt.
  destruct (thenAttempt f (Some spec) p w) as [p1 w1]. cbn [fst] in Hattempt.
  destruct rest as [|next rest]; [done|]. by apply IH.
Qed.

Lemma thenBrowserField_defined pl e rq path st :
  fst (thenBrowserField pl e rq (Some path) st) <> Fulfilled None.
Proof.
  unfold thenBrowserField.
  repeat match goal with
         | |- context [match ?x with _ => _ end] => destruct x; try done
         end.
Qed.

Lemma searchPhase_defined pl e basedir specifiers st :
  specifiers <> [] ->
  fst (fst (searchPhase pl e basedir specifiers st)) <> Fulfilled None.
Proof.
  intros Hne. unfold searchPhase. rewrite resolveImportSpecifiers_tryEach.
  pose proof (tryEach_defined (resolveIdAsync pl e basedir) specifiers (Fulfilled None)
                (initialRequest, st) Hne) as Hloop.
  destruct (tryEach _ _ _ _) as [[[path|]|err] [rq st1]]; cbn [fst] in *; [|done|done].
  pose proof (thenBrowserField_defined pl e rq path st1) as Hthen.
  by destruct (thenBrowserField _ _ _ _ _).
Qed.

(** The candidates of a request that has them: the shorthand of a request
    without importer, [<importee>/] for a built-in name unless
    [preferBuiltins] is set and true, and the importee. *)
Lemma importSpecifierList_inr pl e importee importer specifiers :
  importSpecifierList pl e importee importer = inr specifiers ->
  specifiers
  = match importer with
    | Some _ => []
    | None => if firstIs importee "/" then [] else ["./" +:+ importee]
    end
    ++ (if isBuiltin e (Some importee)
           && (negb (preferBuiltins pl) || negb (isPreferBuiltinsSet pl))
        then [importee +:+ "/"] else [])
    ++ [importee].
Proof.
  unfold importSpecifierList. destruct importer as [file|]; [by intros [= <-]|].
  destruct importee as [|c rest]; [done|]. cbn [charAt0 firstIs].
  assert (matchesDotsSlash (String c "") = Ascii.eqb c "/"%char) as ->.
  { unfold matchesDotsSlash, startsWith. cbn [String.prefix].
    destruct (Ascii.eqb_spec c "/"%char) as [->|Hc]; [reflexivity|].
    destruct (ascii_dec "/" c) as [<-|_]; [done|].
    destruct (ascii_dec "." c) as [<-|_]; reflexivity. }
  intros [= <-]. by destruct (Ascii.eqb c "/"%char).
Qed.

(** What the options make of [preferBuiltins]. *)
Lemma nodeResolve_preferBuiltins e o pl :
  nodeResolve e o = inr pl ->
  isPreferBuiltinsSet pl = bool_decide (is_Some (o_preferBuiltins o))
  /\ preferBuiltins pl = default true (o_preferBuiltins o).
Proof.
  unfold nodeResolve. destruct (getMainFields o); [done|].
  destruct (o_skip o); [done|]. by intros [= <-].
Qed.

(** C2, as the code has it.  The importee is the name of a built-in module,
    it reaches the resolution unreplaced, and the search phase settles to
    [resolved] with a package entry.  The candidates are, after the
    shorthand [./<importee>] of a request without importer: with
    [preferBuiltins] unset or [false], [<importee>/] and then [<importee>];
    with [preferBuiltins: true], the importee alone.  With [preferBuiltins]
    unset the request returns [null] and one warning is handed to
    [this.warn]; with [preferBuiltins: true] it returns [null] and no
    warning is added; with [preferBuiltins: false] no warning is added and
    the request returns the record of [resolved], unless the jail rejects
    the path or, with [modulesOnly], the file cannot be read or is no
    module: it returns [null] then. *)
Theorem builtin_preference_matrix
    e o pl importee importer st basedir specifiers resolved rq st1 :
  nodeResolve e o = inr pl ->
  isBuiltin e (Some importee) = true ->
  browserStage pl e importee importer st = Proceed basedir importee ->
  onlyAllows pl (onlyId e basedir importee) = true ->
  importSpecifierList pl e importee importer = inr specifiers ->
  searchPhase pl e basedir specifiers st = (Fulfilled resolved, rq, st1) ->
  hasPackageEntry rq = true ->
  let st2 := setIdToPackageInfo resolved (packageInfo rq) st1 in
  let shorthand :=
    match importer with
    | Some _ => []
    | None => if firstIs importee "/" then [] else ["./" +:+ importee]
    end in
  let record := RModule resolved (applySideEffects e (hasModuleSideEffects rq) resolved) in
  (o_preferBuiltins o = None ->
     specifiers = shorthand ++ [importee +:+ "/"; importee]
     /\ resolveId pl e importee importer st
        = (Returns RNull, warn (builtinWarning importee resolved) st2)
     /\ warnings (warn (builtinWarning importee resolved) st2)
        = warnings st ++ [builtinWarning importee resolved])
  /\ (o_preferBuiltins o = Some true ->
        specifiers = shorthand ++ [importee]
        /\ resolveId pl e importee importer st = (Returns RNull, st2)
        /\ warnings st2 = warnings st)
  /\ (o_preferBuiltins o = Some false ->
        specifiers = shorthand ++ [importee +:+ "/"; importee]
        /\ snd (resolveId pl e importee importer st) = st2
        /\ warnings st2 = warnings st
        /\ exists path,
             resolved = Some path
             /\ jailRejects pl e resolved
                = Some (match jail pl with
                        | Some dir =>
                            truthyStr dir && negb (startsWith path (normalize e (trim dir)))
                        | None => false
                        end)
             /\ (jailRejects pl e resolved = Some true ->
                 fst (resolveId pl e importee importer st) = Returns RNull)
             /\ (jailRejects pl e resolved = Some false ->
                 (modulesOnly pl = false \/ truthyStr path = false ->
                  fst (resolveId pl e importee importer st) = Returns record)
                 /\ (modulesOnly pl = true -> truthyStr path = true ->
                     (forall code,
                        readFileAsync e path = Fulfilled code ->
                        fst (resolveId pl e importee importer st)
                        = Returns (if isModule e code then record else RNull))
                     /\ (forall err,
                           readFileAsync e path = Rejected err ->
                           fst (resolveId pl e importee importer st) = Returns RNull)))).
Proof.
  intros Hpl Hbuiltin Hstage Honly Hspec Hsearch Hentry st2 shorthand record.
  destruct (nodeResolve_preferBuiltins e o pl Hpl) as [Hset Hprefer].
  assert (warnings st2 = warnings st) as Hwarnings.
  { subst st2. simpl.
    by rewrite <- (searchPhase_warnings pl e basedir specifiers st), Hsearch. }
  assert (resolveId pl e importee importer st
          = (let '(p, st') := thenPolicy pl e importee rq resolved st1 in
             match p with
             | Fulfilled r => (Returns r, st')
             | Rejected _ => (Returns RNull, st')
             end)) as Hrun.
  { unfold resolveId. rewrite Hstage, Honly. unfold resolveFrom.
    by rewrite Hspec, Hsearch. }
  assert (exists path, resolved = Some path) as [path ->].
  { destruct (importSpecifierList_nonempty _ _ _ _ _ Hspec) as [candidates ->].
    pose proof (searchPhase_defined pl e basedir (candidates ++ [importee]) st) as Hdefined.
    rewrite Hsearch in Hdefined. cbn [fst] in Hdefined.
    destruct resolved as [path|]; [by eexists|].
    destruct Hdefined; [|done]. by destruct candidates. }
  apply importSpecifierList_inr in Hspec. rewrite Hbuiltin in Hspec. fold shorthand in Hspec.
  unfold thenPolicy in Hrun. rewrite Hentry, Hbuiltin in Hrun. fold st2 in Hrun.
  split; [|split]; intros Hoption; rewrite Hoption in Hset, Hprefer;
    simpl in Hset, Hprefer; rewrite Hset, Hprefer in *; cbn [negb andb orb] in *.
  - split; [done|]. rewrite andb_false_r in Hrun. split; [exact Hrun|].
    unfold warn. cbn [warnings]. by rewrite Hwarnings.
  - split; [done|].
    split; [|done]. rewrite Hrun. by destruct (isBuiltin e (Some path)).
  - split; [done|]. rewrite andb_false_r in Hrun.
    assert (jailRejects pl e (Some path)
            = Some (match jail pl with
                    | Some dir =>
                        truthyStr dir && negb (startsWith path (normalize e (trim dir)))
                    | None => false
                    end)) as Hjail.
    { unfold jailRejects. destruct (jail pl) as [dir|]; [|done].
      by destruct (truthyStr dir). }
    rewrite Hjail in Hrun |- *.
    split; [|split; [done|]].
    { rewrite Hrun. destruct (match jail pl with Some _ => _ | None => _ end); [done|].
      by destruct (finalRecord pl e rq (Some path)). }
    exists path. do 2 (split; [done|]). split.
    + intros [= Hrejects]. by rewrite Hrun, Hrejects.
    + intros [= Hadmits]. rewrite Hrun, Hadmits. unfold finalRecord. fold record. split.
      * intros [-> | ->]; [by rewrite andb_false_r|done].
      * intros -> ->. cbn [andb]. split.
        -- by intros code ->.
        -- by intros err ->.
Qed.

Lemma builtin_preference_matrix_witness :
  let e := Demo.envOf Demo.localEvents in
  let importer := Some "/proj/src/main.js" in
  let run :=
    searchPhase Demo.defaultPlugin e "/proj/src" ["events/"; "events"] Demo.emptyState in
  nodeResolve e Demo.defaultOptions = inr Demo.defaultPlugin
  /\ isBuiltin e (Some "events") = true
  /\ browserStage Demo.defaultPlugin e "events" importer Demo.emptyState
     = Proceed "/proj/src" "events"
  /\ onlyAllows Demo.defaultPlugin (onlyId e "/proj/src" "events") = true
  /\ importSpecifierList Demo.defaultPlugin e "events" importer
     = inr ["events/"; "events"]
  /\ fst (fst run) = Fulfilled (Some "/proj/node_modules/events/events.js")
  /\ hasPackageEntry (snd (fst run)) = true
  /\ fst (resolveId Demo.defaultPlugin e "events" importer Demo.emptyState)
     = Returns RNull
  /\ warnings (snd (resolveId Demo.defaultPlugin e "events" importer Demo.emptyState))
     = [builtinWarning "events" (Some "/proj/node_modules/events/events.js")].
Proof.
  intros e importer run.
  assert (run = (Fulfilled (Some "/proj/node_modules/events/events.js"),
                 snd (fst run), snd run)) as Hrun
    by (vm_compute; reflexivity).
  do 7 (split; [vm_compute; reflexivity|]).
  destruct (builtin_preference_matrix e Demo.defaultOptions Demo.defaultPlugin
              "events" importer Demo.emptyState "/proj/src" ["events/"; "events"]
              (Some "/proj/node_modules/events/events.js") (snd (fst run)) (snd run)
              eq_refl eq_refl eq_refl eq_refl eq_refl Hrun eq_refl)
    as [Hunset _].
  destruct (Hunset eq_refl) as (_ & Hresult & Hwarn).
  rewrite Hresult. split; [reflexivity|]. exact Hwarn.
Defined.

(** The options [{ mainFields: ['module'] }], [preferBuiltins] unset, and
    the local package [events], whose manifest has a [main] and no [module]:
    the package is found through [events/], [packageFilter] sets
    [hasPackageEntry] to [false], the policy step is skipped, and the
    request returns the local module without a warning. *)
Lemma builtin_without_package_entry :
  let e := Demo.envOf Demo.localEvents in
  let importer := Some "/proj/src/main.js" in
  let run := resolveId Demo.moduleOnlyPlugin e "events" importer Demo.emptyState in
  nodeResolve e Demo.moduleOnlyOptions = inr Demo.moduleOnlyPlugin
  /\ o_preferBuiltins Demo.moduleOnlyOptions = None
  /\ isBuiltin e (Some "events") = true
  /\ resolveLib e "events/" "/proj/src" Demo.emptyState
     = ([(Demo.eventsManifest, "/proj/node_modules/events/package.json")],
        Fulfilled "/proj/node_modules/events/events.js")
  /\ fst run = Returns (RModule (Some "/proj/node_modules/events/events.js") None)
  /\ warnings (snd run) = [].
Proof. repeat split; vm_compute; reflexivity. Qed.

(** The same project under [preferBuiltins: true] and under
    [preferBuiltins: false]. *)
Example builtin_preference_explicit :
  let e := Demo.envOf Demo.localEvents in
  let importer := Some "/proj/src/main.js" in
  let withPrefer b :=
    match nodeResolve e
            {| o_mainFields := None; o_module := None; o_main := None;
               o_jsnext := None; o_browser := false; o_dedupe := None;
               o_preferBuiltins := Some b; o_rootDir := None; o_jail := None;
               o_only := None; o_skip := false; o_extensions := None;
               o_modulesOnly := false |} with
    | inr pl => Some (resolveId pl e "events" importer Demo.emptyState)
    | inl _ => None
    end in
  (fst <$> withPrefer true) = Some (Returns RNull)
  /\ (warnings <$> (snd <$> withPrefer true)) = Some []
  /\ (fst <$> withPrefer false)
     = Some (Returns (RModule (Some "/proj/node_modules/events/events.js") None))
  /\ (warnings <$> (snd <$> withPrefer false)) = Some [].
Proof. repeat split; vm_compute; reflexivity. Qed.

(** ** Runs of the whole hook *)

(** The browser stub, end to end: resolving [pkg] records its browser map
    for the module found; [foo], imported from that module, resolves to the
    stub id; loading the stub id gives the empty module. *)
Lemma empty_stub_id_witness :
  let e := Demo.envOf Demo.browserPackage in
  let first := resolveId Demo.browserPlugin e "pkg" (Some "/proj/src/main.js") Demo.emptyState in
  fst first = Returns (RModule (Some "/proj/node_modules/pkg/index.js") None)
  /\ browserMapCache (snd first) !! "/proj/node_modules/pkg/index.js"
     = Some {[ "foo" := BFalse ]}
  /\ resolveId Demo.browserPlugin e "foo" (Some "/proj/node_modules/pkg/index.js")
       (snd first)
     = (Returns (RId ES6_BROWSER_EMPTY), snd first)
  /\ load ES6_BROWSER_EMPTY = Some "export default {};".
Proof.
  intros e first.
  assert (browserMapCache (snd first) !! "/proj/node_modules/pkg/index.js"
          = Some {[ "foo" := BFalse ]}) as Hmap by (vm_compute; reflexivity).
  split; [vm_compute; reflexivity|]. split; [exact Hmap|].
  destruct empty_stub_id as (_ & _ & _ & _ & Hstub & Hload).
  split; [|exact Hload].
  apply (Hstub Demo.browserPlugin e "foo" "/proj/node_modules/pkg/index.js"
           (snd first) {[ "foo" := BFalse ]} eq_refl eq_refl Hmap).
  left. reflexivity.
Defined.

(** A request without importer for the built-in name [events], with the
    local package present: three candidates, the first not found, the
    second found, the third never attempted. *)
Example root_request_for_builtin_name :
  let e := Demo.envOf Demo.localEvents in
  let f := resolveIdAsync Demo.defaultPlugin e "/proj" in
  let run :=
    resolveImportSpecifiers (logged f) ["./events"; "events/"; "events"]
      ([], (initialRequest, Demo.emptyState)) in
  importSpecifierList Demo.defaultPlugin e "events" None
  = inr ["./events"; "events/"; "events"]
  /\ fst run = Fulfilled (Some "/proj/node_modules/events/events.js")
  /\ fst (snd run)
     = [("./events", Rejected (Demo.notFoundError "./events"));
        ("events/", Fulfilled "/proj/node_modules/events/events.js")].
Proof. repeat split; vm_compute; reflexivity. Qed.

(** A permission failure of the first of two candidates ends the loop: the
    second candidate is not attempted and the failure is the outcome. *)
Example fault_ends_the_search :
  let f (file : string) (w : unit) :=
    if (file =? "./a")%string
    then (Rejected (Demo.accessError "/proj/a"), w)
    else (Fulfilled "/proj/node_modules/a/index.js", w) in
  let run := resolveImportSpecifiers (logged f) ["./a"; "a"] ([], tt) in
  fst run = Rejected (Demo.accessError "/proj/a")
  /\ fst (snd run) = [("./a", Rejected (Demo.accessError "/proj/a"))].
Proof. repeat split; vm_compute; reflexivity. Qed.

(** ** Spot checks of the helpers *)

Example getPackageName_examples :
  getPackageName "@scope/pkg/sub/path.js" = Some "@scope/pkg"
  /\ getPackageName "@my-scope/my-package" = Some "@my-scope/my-package"
  /\ getPackageName "my-package/foo.js" = Some "my-package"
  /\ getPackageName "./foo.js" = None
  /\ getPackageName "/abs/foo.js" = None.
Proof. repeat split. Qed.

Example getMainFields_examples :
  getMainFields Demo.defaultOptions = inr ["module"; "main"]
  /\ getMainFields Demo.browserOptions = inr ["browser"; "module"; "main"]
  /\ getMainFields Demo.moduleOnlyOptions = inr ["module"].
Proof. repeat split. Qed.

Example splitOn_examples :
  splitOn isSlashOrBackslash "@scope/pkg/sub" = ["@scope"; "pkg"; "sub"]
  /\ splitOn isSlashOrBackslash "/abs/x" = [""; "abs"; "x"]
  /\ splitOn isSlashOrBackslash "" = [""]
  /\ splitOn isSlash "a/" = ["a"; ""].
Proof. repeat split. Qed.

Example trim_examples :
  trim "  /a/b " = "/a/b" /\ trim "/a/b/" = "/a/b/" /\ trim "" = "".
Proof. repeat split. Qed.

Example onlyId_examples :
  let e := Demo.envOf Demo.nothingThere in
  onlyId e "/proj/src" "@scope/pkg/sub/path.js" = "@scope/pkg"
  /\ onlyId e "/proj/src" "pkg/sub.js" = "pkg"
  /\ onlyId e "/proj/src" "./local.js" = "/proj/src/local.js"
  /\ onlyId e "/proj/src" "/abs/file.js" = "".
Proof. repeat split. Qed.

(** * Part III: further properties of the code *)

(** ** Setting up *)

(** X1.  What [getMainFields] returns when it returns: a list that is not empty,
    that has ['browser'] in it when [options.browser] is set, and that is
    either the given [mainFields] - with ['browser'] put in front when
    it was missing - or, without [mainFields], a selection of ['browser'],
    ['module'], ['jsnext:main'], ['main'] in this order. *)
Theorem getMainFields_result o fields :
  getMainFields o = inr fields ->
  fields <> []
  /\ (o_browser o = true -> includes fields "browser" = true)
  /\ (forall given, o_mainFields o = Some given ->
        o_module o = None /\ o_main o = None /\ o_jsnext o = None
        /\ (fields = given \/ (fields = "browser" :: given /\ o_browser o = true
                               /\ includes given "browser" = false)))
  /\ (o_mainFields o = None ->
        sublist fields ["browser"; "module"; "jsnext:main"; "main"]).
Proof.
  unfold getMainFields. intros Hfields.
  destruct (o_mainFields o) as [given|] eqn:Hgiven.
  - destruct (o_module o), (o_main o), (o_jsnext o); try done.
    destruct (o_browser o) eqn:Hbrowser; cbn [andb] in Hfields.
    + destruct (includes given "browser") eqn:Hin; cbn [negb] in Hfields.
      * destruct given; [done|]. simplify_eq.
        split; [done|]. split; [done|]. split; [|done].
        intros ? [= <-]. auto.
      * simplify_eq.
        split; [done|]. split; [done|]. split; [|done].
        intros ? [= <-]. do 3 (split; [done|]). right. done.
    + destruct given; [done|]. simplify_eq.
      split; [done|]. split; [done|]. split; [|done].
      intros ? [= <-]. auto.
  - assert (sublist fields ["browser"; "module"; "jsnext:main"; "main"]
            /\ fields <> []
            /\ (o_browser o = true -> includes fields "browser" = true))
      as (Hsub & Hne & Hbrowser).
    { destruct (o_module o) as [[]|], (o_jsnext o) as [[]|], (o_main o) as [[]|],
        (o_browser o); simpl in Hfields; simplify_eq;
        (split; [repeat first [apply sublist_nil|apply sublist_skip|apply sublist_cons]
                |done]). }
    split; [done|]. split; [done|]. split; [done|done].
Qed.

Lemma getMainFields_result_witness :
  getMainFields Demo.browserOptions = inr ["browser"; "module"; "main"]
  /\ includes ["browser"; "module"; "main"] "browser" = true
  /\ sublist ["browser"; "module"; "main"] ["browser"; "module"; "jsnext:main"; "main"].
Proof.
  split; [reflexivity|].
  destruct (getMainFields_result Demo.browserOptions ["browser"; "module"; "main"] eq_refl)
    as (_ & Hbrowser & _ & Hsub).
  split; [exact (Hbrowser eq_refl)|exact (Hsub eq_refl)].
Defined.

(** When [getMainFields] throws. *)
Lemma getMainFields_fails_iff o :
  (exists err, getMainFields o = inl err)
  <-> (is_Some (o_mainFields o)
       /\ (is_Some (o_module o) \/ is_Some (o_main o) \/ is_Some (o_jsnext o)))
      \/ (o_browser o = false
          /\ (o_mainFields o = Some []
              \/ (o_mainFields o = None /\ o_module o = Some false
                  /\ o_main o = Some false /\ o_jsnext o <> Some true))).
Proof.
  unfold getMainFields.
  destruct (o_mainFields o) as [given|].
  - destruct (o_module o) as [m|], (o_main o) as [mn|], (o_jsnext o) as [j|];
      try (split; [intros _; left; split; eauto|intros _; eauto]; fail).
    destruct (o_browser o); cbn [andb].
    + split.
      * intros [err Herr]. destruct given as [|field given]; [done|].
        destruct (includes (field :: given) "browser"); done.
      * intros [(_ & [[? ?]|[[? ?]|[? ?]]])|[? _]]; done.
    + destruct given as [|field given].
      * split; [intros _; right; auto|intros _; eauto].
      * split; [intros [err Herr]; done|].
        intros [(_ & [[? ?]|[[? ?]|[? ?]]])|[_ [?|[? _]]]]; done.
  - destruct (o_module o) as [[]|], (o_main o) as [[]|], (o_jsnext o) as [[]|],
      (o_browser o); cbn;
      (split;
       [first [intros [err Herr]; discriminate Herr
              |intros _; right; split; [done|right; done]]
       |first [intros [([? ?] & _)|[? [?|(? & ? & ? & ?)]]]; done
              |intros _; by eexists]]).
Qed.

(** X2.  The set-up fails in three cases and in no other: [mainFields] together
    with one of the deprecated options; no main field at all - an empty
    [mainFields], or [module] and [main] switched off without [jsnext] -
    while [options.browser] is not there to add ['browser']; and
    [options.skip]. *)
Theorem nodeResolve_fails_iff e o :
  (exists err, nodeResolve e o = inl err)
  <-> (is_Some (o_mainFields o)
       /\ (is_Some (o_module o) \/ is_Some (o_main o) \/ is_Some (o_jsnext o)))
      \/ (o_browser o = false
          /\ (o_mainFields o = Some []
              \/ (o_mainFields o = None /\ o_module o = Some false
                  /\ o_main o = Some false /\ o_jsnext o <> Some true)))
      \/ o_skip o = true.
Proof.
  pose proof (getMainFields_fails_iff o) as [Hto Hfrom]. unfold nodeResolve.
  destruct (getMainFields o) as [err|fields].
  - split; [intros _|eauto]. destruct Hto as [?|?]; eauto.
  - destruct (o_skip o).
    + split; [auto|eauto].
    + split; [intros [err Herr]; done|].
      intros [H|[H|H]]; [| |done]; destruct Hfrom as [err Herr]; auto; done.
Qed.

(** ** Package names: [getPackageName] *)

Lemma append_cons c (s t : string) : String c s +:+ t = String c (s +:+ t).
Proof. reflexivity. Qed.

(** No piece of a split holds a separator. *)
Lemma splitOn_pieces sep s : Forall (fun piece => hasSep sep piece = false) (splitOn sep s).
Proof.
  induction s as [|c s IH]; cbn [splitOn].
  - by repeat constructor.
  - destruct (sep c) eqn:Hc; [by constructor|].
    destruct (splitOn sep s) as [|piece pieces].
    + repeat constructor. cbn [hasSep]. by rewrite Hc.
    + inversion IH as [|? ? Hpiece Hpieces]; subst.
      constructor; [|done]. cbn [hasSep]. by rewrite Hc.
Qed.

(** A string without separator is one piece. *)
Lemma splitOn_whole sep s : hasSep sep s = false -> splitOn sep s = [s].
Proof.
  induction s as [|c s IH]; [done|]. cbn [hasSep splitOn].
  intros [Hc Hs]%orb_false_iff. by rewrite Hc, (IH Hs).
Qed.

(** The split of a piece, a separator and a remainder. *)
Lemma splitOn_append sep first c s :
  hasSep sep first = false -> sep c = true ->
  splitOn sep (first +:+ String c s) = first :: splitOn sep s.
Proof.
  intros Hfirst Hc. induction first as [|c0 first IH].
  - change ("" +:+ String c s) with (String c s). cbn [splitOn]. by rewrite Hc.
  - cbn [hasSep] in Hfirst. apply orb_false_iff in Hfirst as [Hc0 Hfirst].
    rewrite append_cons. cbn [splitOn]. by rewrite Hc0, (IH Hfirst).
Qed.

(** The string behind its first piece: nothing, or a separator and the
    string that the other pieces are the split of. *)
Lemma splitOn_cons sep s first rest :
  splitOn sep s = first :: rest ->
  (rest = [] /\ s = first)
  \/ (exists c t, sep c = true /\ s = first +:+ String c t /\ splitOn sep t = rest).
Proof.
  revert first rest. induction s as [|c s IH]; intros first rest; cbn [splitOn].
  - intros [= <- <-]. by left.
  - destruct (sep c) eqn:Hc.
    + intros [= <- <-]. right. by exists c, s.
    + destruct (splitOn sep s) as [|piece pieces] eqn:Hsplit.
      { by destruct (splitOn_nonempty sep s). }
      intros [= <- <-].
      destruct (IH piece pieces eq_refl) as [[-> ->]|(c' & t & Hc' & -> & Ht)].
      * by left.
      * right. exists c', t. by rewrite append_cons.
Qed.

Lemma append_assoc (s t u : string) : (s +:+ t) +:+ u = s +:+ t +:+ u.
Proof. induction s as [|c s IH]; [done|]. by rewrite !append_cons, IH. Qed.

Lemma isSlash_eq c : isSlash c = true -> c = "/"%char.
Proof. unfold isSlash. by intros ?%Ascii.eqb_eq. Qed.

Lemma firstIs_append s t c : s <> "" -> firstIs (s +:+ t) c = firstIs s c.
Proof. by destruct s. Qed.

(** The first piece of a specifier that does not start with a slash starts
    as the specifier does. *)
Lemma splitOn_isSlash_first id first rest c :
  firstIs id "/" = false ->
  splitOn isSlash id = first :: rest ->
  firstIs first c = firstIs id c.
Proof.
  intros Hslash Hsplit. rewrite (splitOn_first isSlash id first rest c Hsplit).
  destruct id as [|c0 s]; [done|]. cbn [firstIs] in Hslash.
  unfold isSlash. by rewrite Hslash, andb_true_r.
Qed.

(** X3.  [getPackageName] answers [null] for the specifiers that start with
    a dot or a slash, and for no other. *)
Theorem getPackageName_null_iff id :
  getPackageName id = None <-> firstIs id "." = true \/ firstIs id "/" = true.
Proof.
  unfold getPackageName. rewrite !startsWith_char.
  destruct (firstIs id ".") eqn:Hdot; [by split; auto|].
  destruct (firstIs id "/") eqn:Hslash; [by split; auto|]. cbn [orb].
  destruct (splitOn isSlash id) as [|first rest] eqn:Hsplit.
  { by destruct (splitOn_nonempty isSlash id). }
  destruct (firstIs first "@"); split; try done; by intros [?|?].
Qed.

(** X4.  The name that [getPackageName] gives is a package name itself:
    [getPackageName] maps it to itself.  Unless the specifier is a lone
    scope, the specifier is the name or continues it after a slash; and the
    name of an unscoped specifier holds no slash. *)
Theorem getPackageName_name id name :
  getPackageName id = Some name ->
  getPackageName name = Some name
  /\ ((firstIs id "@" = true -> 2 <= length (splitOn isSlash id)) ->
      inSubtree name id = true)
  /\ (firstIs id "@" = false -> hasSep isSlash name = false).
Proof.
  unfold getPackageName at 1. rewrite !startsWith_char.
  destruct (firstIs id ".") eqn:Hdot; [done|].
  destruct (firstIs id "/") eqn:Hslash; [done|]. cbn [orb].
  destruct (splitOn isSlash id) as [|first rest] eqn:Hsplit; [done|].
  pose proof (splitOn_pieces isSlash id) as Hpieces. rewrite Hsplit in Hpieces.
  inversion Hpieces as [|? ? Hfirst Hrest]; subst.
  pose proof (fun c => splitOn_isSlash_first id first rest c Hslash Hsplit) as Hstart.
  rewrite Hstart.
  destruct (firstIs id "@") eqn:Hat; intros [= <-].
  - assert (first <> "") as Hne.
    { intros ->. specialize (Hstart "@"%char). by rewrite Hat in Hstart. }
    assert (hasSep isSlash (default "undefined" (head rest)) = false) as Hsecond.
    { destruct rest as [|second rest]; [done|]. by inversion Hrest. }
    split; [|split; [|done]].
    + unfold getPackageName. rewrite !startsWith_char, !firstIs_append by done.
      rewrite !Hstart, Hdot, Hslash. cbn [orb].
      change (first +:+ "/" +:+ default "undefined" (head rest))
        with (first +:+ String "/" (default "undefined" (head rest))).
      rewrite (splitOn_append isSlash first) by done.
      rewrite (splitOn_whole isSlash _ Hsecond). by rewrite Hstart, Hat.
    + intros Hlong. specialize (Hlong eq_refl).
      destruct rest as [|second rest]; [simpl in Hlong; lia|].
      change (default "undefined" (head (second :: rest))) with second.
      destruct (splitOn_cons isSlash id first (second :: rest) Hsplit)
        as [[? _]|(c & t & Hc & -> & Ht)]; [done|].
      apply isSlash_eq in Hc as ->. unfold inSubtree.
      destruct (splitOn_cons isSlash t second rest Ht) as [[-> ->]|(c & u & Hc & -> & _)].
      * change (first +:+ "/" +:+ second) with (first +:+ String "/" second).
        by rewrite String.eqb_refl.
      * apply isSlash_eq in Hc as ->. apply orb_true_iff. right. unfold startsWith.
        replace (first +:+ String "/" (second +:+ String "/" u))
          with (((first +:+ "/" +:+ second) +:+ "/") +:+ u).
        { apply prefix_append. }
        by rewrite !append_assoc.
  - split; [|split; [|done]].
    + unfold getPackageName. rewrite !startsWith_char, Hstart, Hdot.
      rewrite (Hstart "/"%char), Hslash. cbn [orb].
      rewrite (splitOn_whole isSlash _ Hfirst). by rewrite Hstart, Hat.
    + intros _. unfold inSubtree.
      destruct (splitOn_cons isSlash id first rest Hsplit)
        as [[_ ->]|(c & t & Hc & -> & _)].
      * by rewrite String.eqb_refl.
      * apply isSlash_eq in Hc as ->. apply orb_true_iff. right. unfold startsWith.
        replace (first +:+ String "/" t) with ((first +:+ "/") +:+ t).
        { apply prefix_append. }
        by rewrite append_assoc.
Qed.

Lemma getPackageName_name_witness :
  getPackageName "@scope/pkg/lib/file.js" = Some "@scope/pkg"
  /\ getPackageName "@scope/pkg" = Some "@scope/pkg"
  /\ inSubtree "@scope/pkg" "@scope/pkg/lib/file.js" = true.
Proof.
  split; [reflexivity|].
  destruct (getPackageName_name "@scope/pkg/lib/file.js" "@scope/pkg" eq_refl)
    as (Hname & Hsub & _).
  split; [exact Hname|]. apply Hsub. intros _. vm_compute. lia.
Defined.

(** ** Deduplication: [shouldDedupe] and the base directory *)

Lemma resolveFrom_importer pl e basedir importee importer1 importer2 st :
  resolveFrom pl e basedir importee (Some importer1) st
  = resolveFrom pl e basedir importee (Some importer2) st.
Proof. reflexivity. Qed.

(** X5.  A deduplicated importee is resolved from [rootDir], whoever imports
    it: two importers with the same browser map (or none) get the same
    answer. *)
Theorem dedupe_ignores_importer pl e importee importer1 importer2 st :
  shouldDedupe pl importee = true ->
  browserMapCache st !! importer1 = browserMapCache st !! importer2 ->
  baseDirectory pl e importee (Some importer1) = rootDir pl
  /\ resolveId pl e importee (Some importer1) st
     = resolveId pl e importee (Some importer2) st.
Proof.
  intros Hdedupe Hmaps.
  assert (forall importer, baseDirectory pl e importee (Some importer) = rootDir pl)
    as Hbase.
  { intros importer. unfold baseDirectory. by rewrite Hdedupe, orb_true_r. }
  split; [done|].
  unfold resolveId, browserStage. rewrite !Hbase, Hmaps.
  destruct ((importee =? ES6_BROWSER_EMPTY)%string); [done|].
  destruct (hasNul importee); [done|].
  repeat match goal with
         | |- context [match ?x with _ => _ end] =>
             lazymatch x with
             | resolveFrom _ _ _ _ _ _ => fail
             | _ => destruct x; try done
             end
         end.
Qed.

Lemma dedupe_ignores_importer_witness :
  shouldDedupe Fixtures.dedupePlugin "react/index.js" = true
  /\ baseDirectory Fixtures.dedupePlugin (Demo.envOf Demo.nothingThere)
       "react/index.js" (Some "/proj/a/x.js") = "/proj"
  /\ resolveId Fixtures.dedupePlugin (Demo.envOf Demo.nothingThere)
       "react/index.js" (Some "/proj/a/x.js") Demo.emptyState
     = resolveId Fixtures.dedupePlugin (Demo.envOf Demo.nothingThere)
         "react/index.js" (Some "/other/y.js") Demo.emptyState.
Proof.
  split; [reflexivity|].
  exact (dedupe_ignores_importer Fixtures.dedupePlugin (Demo.envOf Demo.nothingThere)
           "react/index.js" "/proj/a/x.js" "/other/y.js" Demo.emptyState
           eq_refl eq_refl).
Defined.

(** ** The manifest cache: [getCachedPackageInfo] *)

Lemma selectMainField_none fields pkg :
  Forall (fun field => stringField pkg field = None) fields ->
  selectMainField fields pkg = (pkg, "main", false).
Proof.
  induction 1 as [|field fields Hfield _ IH]; [done|].
  cbn [selectMainField]. by rewrite Hfield.
Qed.

Lemma selectMainField_some pre field post pkg value :
  Forall (fun field => stringField pkg field = None) pre ->
  stringField pkg field = Some value ->
  selectMainField (pre ++ field :: post) pkg = (<["main" := JString value]> pkg, field, true).
Proof.
  intros Hpre Hfield. induction Hpre as [|skipped pre Hskipped _ IH].
  - cbn [app selectMainField]. by rewrite Hfield.
  - cbn [app selectMainField]. by rewrite Hskipped.
Qed.

(** The loop finds a field or none. *)
Lemma selectMainField_cases fields pkg :
  Forall (fun field => stringField pkg field = None) fields
  \/ exists pre field post value,
       fields = pre ++ field :: post
       /\ Forall (fun field => stringField pkg field = None) pre
       /\ stringField pkg field = Some value.
Proof.
  induction fields as [|field fields IH]; [by left|].
  destruct (stringField pkg field) as [value|] eqn:Hfield.
  - right. by exists [], field, fields, value.
  - destruct IH as [Hnone|(pre & found & post & value & -> & Hpre & Hfound)].
    + left. by constructor.
    + right. exists (field :: pre), found, post, value. split; [done|].
      split; [by constructor|done].
Qed.

(** Overriding [main] leaves the other fields of the manifest alone. *)
Lemma selectMainField_other fields pkg key :
  key <> "main" -> (selectMainField fields pkg).1.1 !! key = pkg !! key.
Proof.
  intros Hkey. induction fields as [|field fields IH]; [done|]. cbn [selectMainField].
  destruct (stringField pkg field) as [value|]; [|done]. cbn [fst].
  by rewrite lookup_insert_ne.
Qed.

(** What a call for a path that is not cached returns, when it returns. *)
Lemma getCachedPackageInfo_fresh pl e pkg pkgPath st info :
  packageInfoCache st !! pkgPath = None ->
  fst (getCachedPackageInfo pl e pkg pkgPath st) = inr info ->
  let key := if followSymlinks st then realpathSync e pkgPath else pkgPath in
  let selected := selectMainField (mainFields pl) pkg in
  snd (getCachedPackageInfo pl e pkg pkgPath st) = setPackageInfoCache key info st
  /\ cachedPkg info = selected.1.1
  /\ resolvedMainField (i_packageInfo info) = selected.1.2
  /\ i_hasPackageEntry info = selected.2 || includes (mainFields pl) "main"
  /\ packageJson (i_packageInfo info) = pkg
  /\ packageJsonPath (i_packageInfo info) = key
  /\ root (i_packageInfo info) = dirname e key
  /\ i_hasModuleSideEffects info
     = match selected.1.1 !! "sideEffects" with
       | Some (JBool b) => Constantly b
       | Some (JArray patterns) => Filter patterns (dirname e key)
       | _ => AlwaysNull
       end.
Proof.
  intros Hmiss. unfold getCachedPackageInfo. rewrite Hmiss.
  destruct (selectMainField _ _) as [[pkg' field] overridden].
  destruct (entryPoint _ _ _ _) as [err|[entry mapped]]; [done|].
  by intros [= <-].
Qed.

(** A call that throws caches nothing. *)
Lemma getCachedPackageInfo_thrown pl e pkg pkgPath st err :
  fst (getCachedPackageInfo pl e pkg pkgPath st) = inl err ->
  snd (getCachedPackageInfo pl e pkg pkgPath st) = st.
Proof.
  intros Hthrown. pose proof (getCachedPackageInfo_state pl e pkg pkgPath st) as Hstate.
  by rewrite Hthrown in Hstate.
Qed.

(** Without a browser map, a call for a path that is not cached throws
    exactly when [path.resolve] is handed a [main] that is no string. *)
Lemma getCachedPackageInfo_plain pl e pkg pkgPath st :
  packageInfoCache st !! pkgPath = None ->
  useBrowserOverrides pl = false \/ browserObject pkg = None ->
  match mainOrIndex (selectMainField (mainFields pl) pkg).1.1 with
  | Some _ => exists info, fst (getCachedPackageInfo pl e pkg pkgPath st) = inr info
  | None => fst (getCachedPackageInfo pl e pkg pkgPath st) = inl pathTypeError
  end.
Proof.
  intros Hmiss Hplain. unfold getCachedPackageInfo. rewrite Hmiss.
  pose proof (selectMainField_other (mainFields pl) pkg "browser") as Hbrowser.
  destruct (selectMainField _ _) as [[pkg' field] overridden]. cbn [fst] in *.
  assert ((if useBrowserOverrides pl
           then match browserObject pkg' with
                | Some entries =>
                    Some (foldl (browserFieldStep e (extensions pl)
                                   (dirname e (if followSymlinks st
                                               then realpathSync e pkgPath else pkgPath)))
                            ∅ entries)
                | None => None
                end
           else None) = None) as ->.
  { destruct Hplain as [->|Hnone]; [done|]. destruct (useBrowserOverrides pl); [|done].
    unfold browserObject in *. rewrite Hbrowser by done.
    by destruct (pkg !! "browser") as [[]|]. }
  unfold entryPoint. destruct (mainOrIndex pkg'); [|done]. by eexists.
Qed.

(** X6.  A call of [getCachedPackageInfo] for a path that is not cached
    either returns or throws.  When it returns, the new info is stored
    under the real path of the manifest (under the path itself when
    symbolic links are preserved) and nowhere else, and the other maps of
    the plugin are left alone; for a path that is a symbolic link, the path
    itself is still not in the cache afterwards.  When it throws, nothing
    is stored.  Without a browser map it throws exactly when no main field
    of the manifest has a string value and its [main] is [true], an array
    or an object, which [path.resolve] refuses. *)
Theorem getCachedPackageInfo_stores pl e pkg pkgPath st :
  packageInfoCache st !! pkgPath = None ->
  let key := if followSymlinks st then realpathSync e pkgPath else pkgPath in
  let result := fst (getCachedPackageInfo pl e pkg pkgPath st) in
  let st1 := snd (getCachedPackageInfo pl e pkg pkgPath st) in
  (forall info,
     result = inr info ->
     packageInfoCache st1 !! key = Some info
     /\ packageJsonPath (i_packageInfo info) = key
     /\ (forall other, other <> key ->
           packageInfoCache st1 !! other = packageInfoCache st !! other)
     /\ (pkgPath <> key -> packageInfoCache st1 !! pkgPath = None)
     /\ browserMapCache st1 = browserMapCache st
     /\ idToPackageInfo st1 = idToPackageInfo st
     /\ probes st1 = probes st
     /\ preserveSymlinks st1 = preserveSymlinks st)
  /\ (forall err, result = inl err -> st1 = st)
  /\ (useBrowserOverrides pl = false \/ browserObject pkg = None ->
      (result = inl pathTypeError
       <-> Forall (fun field => stringField pkg field = None) (mainFields pl)
           /\ mainOrIndex pkg = None)
      /\ (result = inl pathTypeError \/ exists info, result = inr info)).
Proof.
  intros Hmiss key result st1. subst result st1. split; [|split].
  - intros info Hinfo.
    destruct (getCachedPackageInfo_fresh pl e pkg pkgPath st info Hmiss Hinfo)
      as (-> & _ & _ & _ & _ & Hpath & _). fold key in Hpath |- *.
    cbn [setPackageInfoCache packageInfoCache browserMapCache idToPackageInfo probes
         preserveSymlinks].
    split; [apply lookup_insert_eq|]. split; [done|].
    split; [intros other Hother; by rewrite lookup_insert_ne|].
    split; [intros Hne; by rewrite lookup_insert_ne|done].
  - apply getCachedPackageInfo_thrown.
  - intros Hplain.
    pose proof (getCachedPackageInfo_plain pl e pkg pkgPath st Hmiss Hplain) as Hcall.
    destruct (selectMainField_cases (mainFields pl) pkg)
      as [Hnone|(pre & field & post & value & Hfields & Hpre & Hfield)].
    + rewrite (selectMainField_none _ _ Hnone) in Hcall. cbn [fst] in Hcall.
      destruct (mainOrIndex pkg) as [main|].
      * destruct Hcall as [info Hinfo]. rewrite Hinfo.
        split; [|by eauto]. split; [done|]. by intros [_ ?].
      * rewrite Hcall. split; [done|by left].
    + rewrite Hfields, (selectMainField_some pre field post pkg value Hpre Hfield) in Hcall.
      cbn [fst] in Hcall. unfold mainOrIndex in Hcall at 1.
      rewrite lookup_insert_eq in Hcall. destruct Hcall as [info Hinfo]. rewrite Hinfo.
      split; [|by eauto]. split; [done|]. intros [Hnone _]. exfalso.
      rewrite Hfields in Hnone. apply Forall_app in Hnone as [_ Hnone].
      apply Forall_cons in Hnone as [Hnone _]. congruence.
Qed.

Lemma getCachedPackageInfo_stores_witness :
  packageInfoCache
    (snd (getCachedPackageInfo Demo.defaultPlugin (Fixtures.linkedEnv Demo.nothingThere)
            Demo.oldManifest Demo.pkgPath Demo.emptyState))
    !! Demo.pkgPath = None
  /\ is_Some
       (packageInfoCache
          (snd (getCachedPackageInfo Demo.defaultPlugin
                  (Fixtures.linkedEnv Demo.nothingThere)
                  Demo.oldManifest Demo.pkgPath Demo.emptyState))
          !! "/store/pkg/package.json")
  /\ getCachedPackageInfo Demo.defaultPlugin (Fixtures.linkedEnv Demo.nothingThere)
       Fixtures.brokenManifest Demo.pkgPath Demo.emptyState
     = (inl pathTypeError, Demo.emptyState).
Proof.
  destruct (getCachedPackageInfo_stores Demo.defaultPlugin
              (Fixtures.linkedEnv Demo.nothingThere)
              Demo.oldManifest Demo.pkgPath Demo.emptyState (lookup_empty _))
    as (Hreturns & _ & _).
  destruct (Hreturns _ eq_refl) as (Hkey & _ & _ & Hpath & _).
  split; [apply Hpath; vm_compute; discriminate|].
  split; [eexists; exact Hkey|].
  vm_compute. reflexivity.
Defined.

(** X7.  Once a manifest path has been interpreted, the answer for that path
    is the first one, whatever manifest comes with a later call, and a later
    call changes nothing - provided the path is its own real path or
    symbolic links are preserved.  A call that threw has left no answer:
    the state is as before it. *)
Theorem getCachedPackageInfo_memo pl e pkg pkg' pkgPath st :
  (followSymlinks st = true -> realpathSync e pkgPath = pkgPath) ->
  (forall info,
     fst (getCachedPackageInfo pl e pkg pkgPath st) = inr info ->
     getCachedPackageInfo pl e pkg' pkgPath (snd (getCachedPackageInfo pl e pkg pkgPath st))
     = (inr info, snd (getCachedPackageInfo pl e pkg pkgPath st)))
  /\ (forall err,
        fst (getCachedPackageInfo pl e pkg pkgPath st) = inl err ->
        getCachedPackageInfo pl e pkg' pkgPath
          (snd (getCachedPackageInfo pl e pkg pkgPath st))
        = getCachedPackageInfo pl e pkg' pkgPath st).
Proof.
  intros Hreal. split.
  - intros info Hinfo.
    destruct (packageInfoCache st !! pkgPath) as [cached|] eqn:Hlookup.
    + revert Hinfo. unfold getCachedPackageInfo. rewrite Hlookup. cbn [fst snd].
      intros [= ->]. by rewrite Hlookup.
    + destruct (getCachedPackageInfo_fresh pl e pkg pkgPath st info Hlookup Hinfo)
        as (-> & _).
      assert ((if followSymlinks st then realpathSync e pkgPath else pkgPath) = pkgPath)
        as ->.
      { destruct (followSymlinks st); auto. }
      unfold getCachedPackageInfo at 1.
      cbn [setPackageInfoCache packageInfoCache]. by rewrite lookup_insert_eq.
  - intros err Herr. by rewrite (getCachedPackageInfo_thrown _ _ _ _ _ _ Herr).
Qed.

Lemma getCachedPackageInfo_memo_witness :
  fst (getCachedPackageInfo Demo.defaultPlugin (Demo.envOf Demo.nothingThere)
         Demo.newManifest Demo.pkgPath
         (snd (getCachedPackageInfo Demo.defaultPlugin (Demo.envOf Demo.nothingThere)
                 Demo.oldManifest Demo.pkgPath Demo.emptyState)))
  = fst (getCachedPackageInfo Demo.defaultPlugin (Demo.envOf Demo.nothingThere)
           Demo.oldManifest Demo.pkgPath Demo.emptyState).
Proof.
  exact (f_equal fst
           (proj1 (getCachedPackageInfo_memo Demo.defaultPlugin
                     (Demo.envOf Demo.nothingThere)
                     Demo.oldManifest Demo.newManifest Demo.pkgPath Demo.emptyState
                     (fun _ => eq_refl)) _ eq_refl)).
Defined.

(** ** The entry point of a package: the loop over [mainFields] *)

(** X8.  When the manifest of a path that is not cached is interpreted and
    the call returns, the first of [mainFields] whose value in the manifest
    is a string is [resolvedMainField], its value is the [main] of the
    manifest handed on to the [resolve] package, and the package has an
    entry.  When no field of [mainFields] has a string value, the manifest
    is handed on as it is, [resolvedMainField] stays ['main'], and the
    package has an entry only if ['main'] is one of [mainFields].
    [packageJson] is the manifest as it came, in both cases. *)
Theorem main_field_priority pl e pkg pkgPath st info :
  packageInfoCache st !! pkgPath = None ->
  fst (getCachedPackageInfo pl e pkg pkgPath st) = inr info ->
  packageJson (i_packageInfo info) = pkg
  /\ (forall pre field post value,
        mainFields pl = pre ++ field :: post ->
        Forall (fun skipped => stringField pkg skipped = None) pre ->
        stringField pkg field = Some value ->
        resolvedMainField (i_packageInfo info) = field
        /\ cachedPkg info = <["main" := JString value]> pkg
        /\ i_hasPackageEntry info = true)
  /\ (Forall (fun field => stringField pkg field = None) (mainFields pl) ->
        resolvedMainField (i_packageInfo info) = "main"
        /\ cachedPkg info = pkg
        /\ i_hasPackageEntry info = includes (mainFields pl) "main").
Proof.
  intros Hmiss Hinfo.
  destruct (getCachedPackageInfo_fresh pl e pkg pkgPath st info Hmiss Hinfo)
    as (_ & Hpkg & Hfield & Hentry & Hjson & _).
  split; [done|]. split.
  - intros pre field post value Hfields Hpre Hvalue.
    rewrite Hfields, (selectMainField_some pre field post pkg value Hpre Hvalue)
      in Hpkg, Hfield, Hentry.
    done.
  - intros Hnone. by rewrite (selectMainField_none _ _ Hnone) in Hpkg, Hfield, Hentry.
Qed.

Lemma main_field_priority_witness :
  exists info,
    fst (getCachedPackageInfo Demo.defaultPlugin (Demo.envOf Demo.nothingThere)
           Fixtures.dualManifest Demo.pkgPath Demo.emptyState) = inr info
    /\ resolvedMainField (i_packageInfo info) = "module"
    /\ cachedPkg info = <["main" := JString "esm/index.js"]> Fixtures.dualManifest.
Proof.
  eexists. split; [vm_compute; reflexivity|].
  destruct (main_field_priority Demo.defaultPlugin (Demo.envOf Demo.nothingThere)
              Fixtures.dualManifest Demo.pkgPath Demo.emptyState _
              (lookup_empty _) eq_refl)
    as (_ & Hfound & _).
  destruct (Hfound [] "module" ["main"] "esm/index.js" eq_refl (Forall_nil_2 _) eq_refl)
    as (Hfield & Hpkg & _).
  split; [exact Hfield|exact Hpkg].
Defined.

(** ** The browser map of a manifest: one step of the [reduce] *)



(** ** The browser map, from the package found to its imports *)

(** The first [then] records the browser map of the request under one key
    and changes nothing else of the state. *)
Lemma thenBrowserField_state pl e rq path st field :
  packageBrowserField rq = Some field ->
  truthyStr path = true ->
  snd (thenBrowserField pl e rq (Some path) st)
  = setBrowserMapCache (browserMapKey field path) field st.
Proof.
  intros Hfield Hpath. unfold thenBrowserField, browserMapKey. rewrite Hfield, Hpath.
  destruct (field !! path) as [[|replacement]|]; [done| |].
  - destruct (truthyStr replacement) eqn:Hreplacement; [|done].
    destruct (hasPackageEntry rq && followSymlinks _ && true); [|done].
    destruct (existsAsync e replacement); [|done].
    by destruct (realpathAsync e replacement).
  - destruct (hasPackageEntry rq && followSymlinks _ && _); [|done].
    destruct (existsAsync e path); [|done].
    by destruct (realpathAsync e path).
Qed.

(** X10.  When a request finds a file of a package with a browser map, the
    map is recorded for that file - under the path as the [resolve]
    package gave it, or under its replacement in the map - and for no other
    path, the real path of the file included.  A later request from that
    importer then sees the map: an importee that the map sends to [false]
    gets the empty stub, and an importee with a replacement goes on as its
    replacement. *)
Theorem browser_map_round_trip pl e rq path st field :
  useBrowserOverrides pl = true ->
  packageBrowserField rq = Some field ->
  truthyStr path = true ->
  let key := browserMapKey field path in
  let st1 := snd (thenBrowserField pl e rq (Some path) st) in
  browserMapCache st1 = <[key := field]> (browserMapCache st)
  /\ (forall real, realpathAsync e key = Fulfilled real -> real <> key ->
        browserMapCache st1 !! real = browserMapCache st !! real)
  /\ (forall importee,
        hasNul importee = false ->
        field !! importee = Some BFalse ->
        resolveId pl e importee (Some key) st1 = (Returns (RId ES6_BROWSER_EMPTY), st1))
  /\ (forall importee replacement,
        hasNul importee = false ->
        field !! importee = Some (BStr replacement) ->
        truthyStr replacement = true ->
        field !! resolve e (baseDirectory pl e importee (Some key)) importee <> Some BFalse ->
        browserStage pl e importee (Some key) st1
        = Proceed (baseDirectory pl e importee (Some key)) replacement).
Proof.
  intros Hoverrides Hfield Hpath key st1.
  assert (browserMapCache st1 = <[key := field]> (browserMapCache st)) as Hmap.
  { subst st1. by rewrite (thenBrowserField_state pl e rq path st field). }
  split; [done|]. split; [|split].
  - intros real _ Hne. by rewrite Hmap, lookup_insert_ne.
  - intros importee Hnul Hfalse. unfold resolveId, browserStage.
    rewrite (stub_has_nul importee Hnul), Hnul, Hmap, lookup_insert_eq, Hoverrides.
    by rewrite (readProperty_own _ _ _ Hfalse).
  - intros importee replacement Hnul Hreplacement Htruthy Hresolved.
    unfold browserStage.
    rewrite (stub_has_nul importee Hnul), Hnul, Hmap, lookup_insert_eq, Hoverrides.
    rewrite (readProperty_own _ _ _ Hreplacement). cbn [isFalseP orb].
    do 3 (rewrite (orP_truthy (Some (Own (BStr replacement)))) by exact Htruthy).
    rewrite Htruthy. unfold readProperty.
    destruct (field !! resolve e _ importee) as [[|other]|]; [done|done|].
    by destruct (existsb _ _).
Qed.

Lemma browser_map_round_trip_witness :
  resolveId Demo.browserPlugin (Fixtures.linkedEnv Demo.browserPackage) "foo"
    (Some "/proj/node_modules/pkg/index.js")
    (snd (thenBrowserField Demo.browserPlugin (Fixtures.linkedEnv Demo.browserPackage)
            Fixtures.browserRequest (Some "/proj/node_modules/pkg/index.js")
            Demo.emptyState))
  = (Returns (RId ES6_BROWSER_EMPTY),
     snd (thenBrowserField Demo.browserPlugin (Fixtures.linkedEnv Demo.browserPackage)
            Fixtures.browserRequest (Some "/proj/node_modules/pkg/index.js")
            Demo.emptyState))
  /\ browserMapCache
       (snd (thenBrowserField Demo.browserPlugin (Fixtures.linkedEnv Demo.browserPackage)
               Fixtures.browserRequest (Some "/proj/node_modules/pkg/index.js")
               Demo.emptyState))
       !! "/store/pkg/index.js" = None.
Proof.
  destruct (browser_map_round_trip Demo.browserPlugin
              (Fixtures.linkedEnv Demo.browserPackage) Fixtures.browserRequest
              "/proj/node_modules/pkg/index.js" Demo.emptyState
              {[ "foo" := BFalse ]} eq_refl eq_refl eq_refl)
    as (_ & Hreal & Hstub & _).
  split.
  - exact (Hstub "foo" eq_refl eq_refl).
  - rewrite (Hreal "/store/pkg/index.js" eq_refl); [reflexivity|].
    vm_compute. discriminate.
Defined.

(** ** Packages without entry: none when ['main'] is a main field *)

Lemma getCachedPackageInfo_entry pl e pkg pkgPath st :
  includes (mainFields pl) "main" = true ->
  entriesCached st ->
  (forall info,
     fst (getCachedPackageInfo pl e pkg pkgPath st) = inr info ->
     i_hasPackageEntry info = true)
  /\ entriesCached (snd (getCachedPackageInfo pl e pkg pkgPath st)).
Proof.
  intros Hmain Hinv.
  assert (forall info,
            fst (getCachedPackageInfo pl e pkg pkgPath st) = inr info ->
            i_hasPackageEntry info = true) as Hentry.
  { intros info Hinfo.
    destruct (packageInfoCache st !! pkgPath) as [cached|] eqn:Hlookup.
    - revert Hinfo. unfold getCachedPackageInfo. rewrite Hlookup. intros [= <-].
      exact (Hinv pkgPath cached Hlookup).
    - destruct (getCachedPackageInfo_fresh pl e pkg pkgPath st info Hlookup Hinfo)
        as (_ & _ & _ & -> & _).
      rewrite Hmain. apply orb_true_r. }
  split; [done|].
  pose proof (getCachedPackageInfo_state pl e pkg pkgPath st) as Hstate.
  destruct (fst (getCachedPackageInfo pl e pkg pkgPath st)) as [err|info] eqn:Hresult.
  - by rewrite Hstate.
  - destruct Hstate as [->|[_ ->]]; [done|].
    apply map_Forall_insert_2; [by apply Hentry|done].
Qed.

Lemma resolveIdAsync_entry pl e basedir file w :
  includes (mainFields pl) "main" = true ->
  hasPackageEntry (fst w) = true /\ entriesCached (snd w) ->
  hasPackageEntry (fst (snd (resolveIdAsync pl e basedir file w))) = true
  /\ entriesCached (snd (snd (resolveIdAsync pl e basedir file w))).
Proof.
  intros Hmain. unfold resolveIdAsync.
  destruct (resolveLib e file basedir (snd w)) as [calls r]. cbn [snd].
  apply (packageFilterCalls_invariant pl e
           (fun w' => hasPackageEntry (fst w') = true /\ entriesCached (snd w'))).
  intros [rq st] call [Hrq Hst]. unfold packageFilter.
  destruct (getCachedPackageInfo_entry pl e (fst call) (snd call) st Hmain Hst)
    as [Hentry Hcache].
  destruct (getCachedPackageInfo _ _ _ _ _) as [[err|info] st']; cbn [fst snd] in *.
  - done.
  - split; [by apply Hentry|done].
Qed.

Lemma thenBrowserField_packageInfoCache pl e rq resolved st :
  packageInfoCache (snd (thenBrowserField pl e rq resolved st)) = packageInfoCache st.
Proof.
  unfold thenBrowserField.
  repeat match goal with
         | |- context [match ?x with _ => _ end] => destruct x; try done
         end.
Qed.

Lemma thenPolicy_packageInfoCache pl e importee rq resolved st :
  packageInfoCache (snd (thenPolicy pl e importee rq resolved st)) = packageInfoCache st.
Proof.
  unfold thenPolicy.
  repeat match goal with
         | |- context [match ?x with _ => _ end] => destruct x; try done
         end.
Qed.

(** With ['main'] among the main fields, the search phase ends with
    [hasPackageEntry] true. *)
Lemma searchPhase_entry pl e basedir specifiers st :
  includes (mainFields pl) "main" = true ->
  entriesCached st ->
  hasPackageEntry (snd (fst (searchPhase pl e basedir specifiers st))) = true
  /\ entriesCached (snd (searchPhase pl e basedir specifiers st)).
Proof.
  intros Hmain Hst. unfold searchPhase. rewrite resolveImportSpecifiers_tryEach.
  pose proof (tryEach_invariant (resolveIdAsync pl e basedir)
                (fun w => hasPackageEntry (fst w) = true /\ entriesCached (snd w))
                (fun file w => resolveIdAsync_entry pl e basedir file w Hmain)
                specifiers (Fulfilled None) (initialRequest, st) (conj eq_refl Hst))
    as Hinv.
  destruct (tryEach _ _ _ _) as [[resolved|err] [rq st1]]; cbn [fst snd] in *; [|done].
  pose proof (thenBrowserField_packageInfoCache pl e rq resolved st1) as Hcache.
  destruct (thenBrowserField _ _ _ _ _) as [p st2]. cbn [fst snd] in *.
  split; [by destruct Hinv|]. unfold entriesCached. rewrite Hcache. by destruct Hinv.
Qed.

Lemma browserStage_done pl e importee importer st r :
  browserStage pl e importee importer st = Done r ->
  r = RNull \/ r = RId ES6_BROWSER_EMPTY.
Proof.
  unfold browserStage.
  destruct (String.eqb_spec importee ES6_BROWSER_EMPTY) as [->|_].
  { intros [= <-]. by right. }
  repeat match goal with
         | |- context [match ?x with _ => _ end] => destruct x; try done
         end; intros [= <-]; auto.
Qed.

(** X11.  With ['main'] among the main fields - as it is by default - every
    manifest that the plugin caches has a package entry: the cache starts
    empty, and [resolveId], [buildStart] and [generateBundle] keep it so. *)
Theorem resolveId_keeps_entries pl e importee importer st preserve :
  includes (mainFields pl) "main" = true ->
  entriesCached st ->
  entriesCached (snd (resolveId pl e importee importer st))
  /\ entriesCached (buildStart preserve st)
  /\ entriesCached (generateBundle st).
Proof.
  intros Hmain Hst. split; [|done].
  unfold resolveId.
  destruct (browserStage _ _ _ _ _) as [r|basedir importee'|fault]; [done| |done].
  destruct (onlyAllows _ _); [|done]. unfold resolveFrom.
  destruct (importSpecifierList _ _ _ _) as [err|specifiers]; [done|].
  destruct (searchPhase_entry pl e basedir specifiers st Hmain Hst) as [_ Hst1].
  destruct (searchPhase _ _ _ _ _) as [[[resolved|err] rq] st1]; cbn [fst snd] in *.
  - pose proof (thenPolicy_packageInfoCache pl e importee' rq resolved st1) as Hcache.
    destruct (thenPolicy _ _ _ _ _ _) as [[r|err] st2]; cbn [fst snd] in *;
      unfold entriesCached; by rewrite Hcache.
  - done.
Qed.

Lemma resolveId_keeps_entries_witness :
  entriesCached
    (snd (resolveId Demo.defaultPlugin (Demo.envOf Demo.localEvents) "events" None
            Demo.emptyState)).
Proof.
  exact (proj1 (resolveId_keeps_entries Demo.defaultPlugin (Demo.envOf Demo.localEvents)
                  "events" None Demo.emptyState None eq_refl (map_Forall_empty _))).
Defined.

(** X12.  With ['main'] among the main fields and a jail configured, the
    jail test applies to every request: the id of every record that
    [resolveId] returns starts with the normalised jail path. *)
Theorem jail_is_enforced pl e importee importer st dir id moduleSideEffects :
  includes (mainFields pl) "main" = true ->
  entriesCached st ->
  jail pl = Some dir ->
  truthyStr dir = true ->
  fst (resolveId pl e importee importer st) = Returns (RModule id moduleSideEffects) ->
  match id with
  | Some path => startsWith path (normalize e (trim dir)) = true
  | None => False
  end.
Proof.
  intros Hmain Hst Hjail Hdir. unfold resolveId.
  destruct (browserStage _ _ _ _ _) as [r|basedir importee'|fault] eqn:Hstage; [| |done].
  { by destruct (browserStage_done _ _ _ _ _ _ Hstage) as [->| ->]. }
  destruct (onlyAllows _ _); [|done]. unfold resolveFrom.
  destruct (importSpecifierList _ _ _ _) as [err|specifiers]; [done|].
  destruct (searchPhase_entry pl e basedir specifiers st Hmain Hst) as [Hentry _].
  destruct (searchPhase _ _ _ _ _) as [[[resolved|err] rq] st1]; cbn [fst snd] in *;
    [|done].
  unfold thenPolicy, jailRejects, finalRecord. rewrite Hentry, Hjail, Hdir.
  destruct (isBuiltin e resolved && preferBuiltins pl && isPreferBuiltinsSet pl); [done|].
  destruct (isBuiltin e (Some importee') && preferBuiltins pl); [done|].
  destruct resolved as [path|]; [|done].
  destruct (startsWith path (normalize e (trim dir))) eqn:Hprefix; [|done]. cbn [negb].
  destruct (truthyStr path && modulesOnly pl); [|by intros [= <- _]].
  destruct (readFileAsync e path) as [code|err]; [|done].
  destruct (isModule e code); [by intros [= <- _]|done].
Qed.

Lemma jail_is_enforced_witness :
  startsWith "/a/b/lib/x.js" (normalize (Demo.envOf Fixtures.insideJail) (trim "/a/b")) = true.
Proof.
  exact (jail_is_enforced Demo.jailedPlugin (Demo.envOf Fixtures.insideJail)
           "./lib/x.js" (Some "/a/b/main.js") Demo.emptyState "/a/b"
           (Some "/a/b/lib/x.js") None
           eq_refl (map_Forall_empty _) eq_refl eq_refl eq_refl).
Defined.



(** ** What [resolveId] returns *)

(** A record comes out of [finalRecord] alone. *)
Lemma thenPolicy_record pl e importee rq resolved st id moduleSideEffects :
  fst (thenPolicy pl e importee rq resolved st) = Fulfilled (RModule id moduleSideEffects) ->
  finalRecord pl e rq resolved = Fulfilled (RModule id moduleSideEffects).
Proof.
  unfold thenPolicy. destruct (hasPackageEntry rq); [|done].
  destruct (isBuiltin e resolved && preferBuiltins pl && isPreferBuiltinsSet pl); [done|].
  destruct (isBuiltin e (Some importee) && preferBuiltins pl); [done|].
  by destruct (jailRejects pl e resolved) as [[]|].
Qed.

Lemma finalRecord_record pl e rq resolved id moduleSideEffects :
  finalRecord pl e rq resolved = Fulfilled (RModule id moduleSideEffects) ->
  id = resolved
  /\ moduleSideEffects = applySideEffects e (hasModuleSideEffects rq) resolved
  /\ forall path, resolved = Some path -> truthyStr path && modulesOnly pl = true ->
       exists code, readFileAsync e path = Fulfilled code /\ isModule e code = true.
Proof.
  unfold finalRecord. destruct resolved as [path|].
  - destruct (truthyStr path && modulesOnly pl) eqn:Hfilter.
    + destruct (readFileAsync e path) as [code|err] eqn:Hread; [|done].
      destruct (isModule e code) eqn:Hmodule; [|done].
      intros [= <- <-]. do 2 (split; [done|]). intros ? [= <-] _. eauto.
    + intros [= <- <-]. do 2 (split; [done|]). intros ? [= <-] Htrue. congruence.
  - intros [= <- <-]. by do 2 (split; [done|]).
Qed.


(** The way of a request that returns a record. *)
Lemma resolveId_record pl e importee importer st id moduleSideEffects :
  fst (resolveId pl e importee importer st) = Returns (RModule id moduleSideEffects) ->
  exists basedir importee' specifiers resolved rq st1,
    browserStage pl e importee importer st = Proceed basedir importee'
    /\ importSpecifierList pl e importee' importer = inr specifiers
    /\ searchPhase pl e basedir specifiers st = (Fulfilled resolved, rq, st1)
    /\ finalRecord pl e rq resolved = Fulfilled (RModule id moduleSideEffects).
Proof.
  unfold resolveId.
  destruct (browserStage _ _ _ _ _) as [r|basedir importee'|fault] eqn:Hstage; [| |done].
  { by destruct (browserStage_done _ _ _ _ _ _ Hstage) as [->| ->]. }
  destruct (onlyAllows _ _); [|done]. unfold resolveFrom.
  destruct (importSpecifierList _ _ _ _) as [err|specifiers] eqn:Hspec; [done|].
  destruct (searchPhase _ _ _ _ _) as [[[resolved|err] rq] st1] eqn:Hsearch; [|done].
  pose proof (thenPolicy_record pl e importee' rq resolved st1 id moduleSideEffects)
    as Hrecord.
  destruct (thenPolicy _ _ _ _ _ _) as [[r|err] st2]; [|done]. cbn [fst] in *.
  intros [= ->]. exists basedir, importee', specifiers, resolved, rq, st1. auto.
Qed.


(** X15.  With [modulesOnly], a record is returned only for a file that was
    read - by [readFileAsync], not through the cache - and found to be a
    module. *)
Theorem modulesOnly_filter pl e importee importer st id moduleSideEffects :
  modulesOnly pl = true ->
  fst (resolveId pl e importee importer st)
  = Returns (RModule (Some id) moduleSideEffects) ->
  truthyStr id = true ->
  exists code, readFileAsync e id = Fulfilled code /\ isModule e code = true.
Proof.
  intros Honly Hresult Hid.
  apply resolveId_record in Hresult
    as (basedir & importee' & specifiers & resolved & rq & st1 & _ & _ & _ & Hrecord).
  apply finalRecord_record in Hrecord as (<- & _ & Hread).
  apply (Hread id eq_refl). by rewrite Hid, Honly.
Qed.

Lemma modulesOnly_filter_witness :
  exists code,
    readFileAsync (Demo.envOf Fixtures.insideJail) "/a/b/lib/x.js" = Fulfilled code
    /\ isModule (Demo.envOf Fixtures.insideJail) code = true.
Proof.
  exact (modulesOnly_filter Fixtures.modulesOnlyPlugin (Demo.envOf Fixtures.insideJail)
           "./lib/x.js" (Some "/a/b/main.js") Demo.emptyState "/a/b/lib/x.js" None
           eq_refl eq_refl eq_refl).
Defined.

(** ** Warnings *)

(** X16.  A request hands at most one warning to [this.warn], and only when
    [preferBuiltins] is not set, the importee (as the importer's browser map
    left it) is the name of a built-in module, and the request returns
    [null]. *)
Theorem resolveId_warns_at_most_once pl e importee importer st :
  warnings (snd (resolveId pl e importee importer st)) = warnings st
  \/ (isPreferBuiltinsSet pl = false
      /\ preferBuiltins pl = true
      /\ fst (resolveId pl e importee importer st) = Returns RNull
      /\ exists basedir importee' resolved,
           browserStage pl e importee importer st = Proceed basedir importee'
           /\ isBuiltin e (Some importee') = true
           /\ warnings (snd (resolveId pl e importee importer st))
              = warnings st ++ [builtinWarning importee' resolved]).
Proof.
  unfold resolveId.
  destruct (browserStage _ _ _ _ _) as [r|basedir importee'|fault] eqn:Hstage;
    [by left| |by left].
  destruct (onlyAllows _ _); [|by left]. unfold resolveFrom.
  destruct (importSpecifierList _ _ _ _) as [err|specifiers]; [by left|].
  pose proof (searchPhase_warnings pl e basedir specifiers st) as Hsearch.
  destruct (searchPhase _ _ _ _ _) as [[[resolved|err] rq] st1]; cbn [fst snd] in *;
    [|by left].
  unfold thenPolicy.
  destruct (hasPackageEntry rq).
  - destruct (isBuiltin e resolved && preferBuiltins pl && isPreferBuiltinsSet pl);
      [by left|].
    destruct (isBuiltin e (Some importee')) eqn:Hbuiltin; cbn [andb].
    + destruct (preferBuiltins pl) eqn:Hprefer.
      * destruct (isPreferBuiltinsSet pl) eqn:Hset; cbn [negb]; [by left|].
        right. do 3 (split; [done|]). exists basedir, importee', resolved.
        do 2 (split; [done|]). cbn [snd warn warnings setIdToPackageInfo].
        by rewrite Hsearch.
      * destruct (jailRejects pl e resolved) as [[]|]; [by left| |by left].
        destruct (finalRecord _ _ _ _); by left.
    + destruct (jailRejects pl e resolved) as [[]|]; [by left| |by left].
      destruct (finalRecord _ _ _ _); by left.
  - destruct (finalRecord _ _ _ _); by left.
Qed.

(** ** The probe cache over a build *)

Section ProbeCacheContent.

Import ProbeCache.

Context {A : Type}.
Variable fn : string -> fileSystem -> settled A.

(** After a sequence of probes, a key holds what it held before, or else
    the first fulfilled result among its probes. *)
Lemma probeAll_lookup probes (cache : gmap string (settled A)) key :
  probeAll fn probes cache !! key
  = match cache !! key with
    | Some p => Some p
    | None => firstFulfilled fn key probes
    end.
Proof.
  revert cache. induction probes as [|[param fs] probes IH]; intros cache.
  { cbn. by destruct (cache !! key). }
  change (probeAll fn ((param, fs) :: probes) cache)
    with (probeAll fn probes (snd (wrapped fn param fs cache))).
  rewrite IH. cbn [firstFulfilled]. unfold wrapped.
  destruct (cache !! param) as [p|] eqn:Hparam; cbn [snd].
  - destruct (String.eqb_spec param key) as [->|Hne]; [by rewrite Hparam|done].
  - destruct (String.eqb_spec param key) as [->|Hne].
    + rewrite Hparam. destruct (fn key fs).
      * by rewrite lookup_insert_eq.
      * by rewrite lookup_delete_eq.
    + destruct (fn param fs).
      * by rewrite lookup_insert_ne.
      * by rewrite lookup_delete_ne, lookup_insert_ne.
Qed.

Lemma firstFulfilled_fulfilled key probes p :
  firstFulfilled fn key probes = Some p -> exists v, p = Fulfilled v.
Proof.
  induction probes as [|[param fs] probes IH]; [done|]. cbn [firstFulfilled].
  destruct ((param =? key)%string); [|done].
  destruct (fn param fs) as [v|err]; [|done]. intros [= <-]. eauto.
Qed.

(** X17.  What a probe cache holds after any sequence of probes since it was
    created or cleared: for each path the first fulfilled result among the
    probes of that path, and nothing for a path whose probes all failed.
    So a rejection that a probe hands out is never a remembered one: the
    primitive ran and rejected in this very call, and the cache is left as
    it was; and a path with a fulfilled result is answered from the cache,
    whatever the file system has become. *)
Theorem probe_cache_content probes :
  (forall key, probeAll fn probes ∅ !! key = firstFulfilled fn key probes)
  /\ (forall param fs err,
        fst (wrapped fn param fs (probeAll fn probes ∅)) = Rejected err ->
        fn param fs = Rejected err
        /\ snd (wrapped fn param fs (probeAll fn probes ∅)) = probeAll fn probes ∅)
  /\ (forall param fs v,
        firstFulfilled fn param probes = Some (Fulfilled v) ->
        wrapped fn param fs (probeAll fn probes ∅) = (Fulfilled v, probeAll fn probes ∅)).
Proof.
  assert (forall key, probeAll fn probes ∅ !! key = firstFulfilled fn key probes)
    as Hlookup.
  { intros key. by rewrite probeAll_lookup, lookup_empty. }
  split; [done|]. split.
  - intros param fs err. unfold wrapped.
    destruct (probeAll fn probes ∅ !! param) as [p|] eqn:Hparam; cbn [fst snd].
    + intros ->. rewrite Hlookup in Hparam.
      by destruct (firstFulfilled_fulfilled _ _ _ Hparam).
    + intros Hfn. rewrite Hfn. split; [done|]. by apply delete_insert_id.
  - intros param fs v Hfirst. apply wrapped_hit. by rewrite Hlookup.
Qed.

End ProbeCacheContent.

(** ** Package information by id: [getPackageInfoForId] *)

(** The search phase changes the state only through [packageInfoCache] and
    [browserMapCache]. *)
Lemma searchPhase_frame {X : Type} (proj : state -> X) :
  (forall k v st, proj (setPackageInfoCache k v st) = proj st) ->
  (forall k v st, proj (setBrowserMapCache k v st) = proj st) ->
  forall pl e basedir specifiers st,
    proj (snd (searchPhase pl e basedir specifiers st)) = proj st.
Proof.
  intros Hinfo Hmap pl e basedir specifiers st.
  assert (forall pkg pkgPath st0,
            proj (snd (getCachedPackageInfo pl e pkg pkgPath st0)) = proj st0) as Hcached.
  { intros pkg pkgPath st0.
    pose proof (getCachedPackageInfo_state pl e pkg pkgPath st0) as Hstate.
    destruct (fst (getCachedPackageInfo pl e pkg pkgPath st0)) as [err|info].
    - by rewrite Hstate.
    - by destruct Hstate as [->|[_ ->]]. }
  assert (forall file w,
            proj (snd w) = proj st ->
            proj (snd (snd (resolveIdAsync pl e basedir file w))) = proj st) as Hasync.
  { intros file w Hw. unfold resolveIdAsync.
    destruct (resolveLib e file basedir (snd w)) as [calls r]. cbn [snd].
    apply (packageFilterCalls_invariant pl e (fun w' => proj (snd w') = proj st));
      [|done].
    intros [rq st0] call Hst0. unfold packageFilter.
    specialize (Hcached (fst call) (snd call) st0).
    destruct (getCachedPackageInfo _ _ _ _ _) as [[err|info] st']; cbn [snd] in *;
      congruence. }
  unfold searchPhase. rewrite resolveImportSpecifiers_tryEach.
  pose proof (tryEach_invariant (resolveIdAsync pl e basedir)
                (fun w => proj (snd w) = proj st) Hasync
                specifiers (Fulfilled None) (initialRequest, st) eq_refl) as Hloop.
  destruct (tryEach _ _ _ _) as [[resolved|err] [rq st1]]; cbn [fst snd] in *; [|done].
  assert (proj (snd (thenBrowserField pl e rq resolved st1)) = proj st1) as Hthen.
  { unfold thenBrowserField.
    repeat match goal with
           | |- context [match ?x with _ => _ end] => destruct x
           end; cbn [snd]; auto. }
  destruct (thenBrowserField _ _ _ _ _). cbn [snd] in *. congruence.
Qed.

Lemma thenPolicy_idToPackageInfo pl e importee rq resolved st :
  idToPackageInfo (snd (thenPolicy pl e importee rq resolved st))
  = <[resolved := packageInfo rq]> (idToPackageInfo st).
Proof.
  unfold thenPolicy.
  repeat match goal with
         | |- context [match ?x with _ => _ end] => destruct x; try done
         end.
Qed.

(** X18.  After a request whose search settled to a path,
    [getPackageInfoForId] answers for that path with the package
    information of the request - the one of the last manifest that went
    through [packageFilter], [undefined] if none did - also when the
    request itself returned [null]; the answer for every other id is as
    before. *)
Theorem getPackageInfoForId_round_trip pl e basedir importee importer st specifiers id :
  importSpecifierList pl e importee importer = inr specifiers ->
  fst (fst (searchPhase pl e basedir specifiers st)) = Fulfilled (Some id) ->
  getPackageInfoForId id (snd (resolveFrom pl e basedir importee importer st))
  = packageInfo (snd (fst (searchPhase pl e basedir specifiers st)))
  /\ forall other,
       other <> id ->
       getPackageInfoForId other (snd (resolveFrom pl e basedir importee importer st))
       = getPackageInfoForId other st.
Proof.
  intros Hspec Hsearch. unfold resolveFrom. rewrite Hspec.
  pose proof (searchPhase_frame idToPackageInfo (fun _ _ _ => eq_refl)
                (fun _ _ _ => eq_refl) pl e basedir specifiers st) as Hframe.
  destruct (searchPhase _ _ _ _ _) as [[p rq] st1]. cbn [fst snd] in *. subst p.
  pose proof (thenPolicy_idToPackageInfo pl e importee rq (Some id) st1) as Hpolicy.
  destruct (thenPolicy _ _ _ _ _ _) as [[r|err] st2]; cbn [snd] in *;
    unfold getPackageInfoForId; rewrite Hpolicy, <- Hframe;
    (split; [by rewrite lookup_insert_eq|]);
    intros other Hother; rewrite lookup_insert_ne; congruence.
Qed.

Lemma getPackageInfoForId_round_trip_witness :
  fst (resolveFrom Demo.defaultPlugin (Demo.envOf Demo.localEvents) "/proj" "events" None
         Demo.emptyState) = Returns RNull
  /\ getPackageInfoForId "/proj/node_modules/events/events.js"
       (snd (resolveFrom Demo.defaultPlugin (Demo.envOf Demo.localEvents) "/proj" "events"
               None Demo.emptyState))
     = packageInfo
         (snd (fst (searchPhase Demo.defaultPlugin (Demo.envOf Demo.localEvents) "/proj"
                      ["./events"; "events/"; "events"] Demo.emptyState))).
Proof.
  split; [vm_compute; reflexivity|].
  apply (getPackageInfoForId_round_trip Demo.defaultPlugin (Demo.envOf Demo.localEvents)
           "/proj" "events" None Demo.emptyState ["./events"; "events/"; "events"]
           "/proj/node_modules/events/events.js");
    vm_compute; reflexivity.
Defined.

(** ** [options.browser] and the main fields *)

(** X19.  [options.browser] is a shorthand: with [mainFields] that do not
    name ['browser'], setting it makes the same plugin as putting
    ['browser'] in front of [mainFields]. *)
Theorem browser_option_is_main_field e o given :
  o_mainFields o = Some given ->
  o_browser o = true ->
  includes given "browser" = false ->
  nodeResolve e o
  = nodeResolve e
      {| o_mainFields := Some ("browser" :: given);
         o_module := o_module o; o_main := o_main o; o_jsnext := o_jsnext o;
         o_browser := false;
         o_dedupe := o_dedupe o; o_preferBuiltins := o_preferBuiltins o;
         o_rootDir := o_rootDir o; o_jail := o_jail o; o_only := o_only o;
         o_skip := o_skip o; o_extensions := o_extensions o;
         o_modulesOnly := o_modulesOnly o |}.
Proof.
  intros Hgiven Hbrowser Hincludes. unfold nodeResolve, getMainFields.
  cbn [o_mainFields o_module o_main o_jsnext o_browser o_dedupe o_preferBuiltins
       o_rootDir o_jail o_only o_skip o_extensions o_modulesOnly].
  rewrite Hgiven, Hbrowser.
  destruct (o_module o), (o_main o), (o_jsnext o); try done.
  by rewrite Hincludes.
Qed.

Lemma browser_option_is_main_field_witness :
  nodeResolve (Demo.envOf Demo.nothingThere) Fixtures.browserModuleOptions
  = nodeResolve (Demo.envOf Demo.nothingThere)
      {| o_mainFields := Some ["browser"; "module"];
         o_module := None; o_main := None; o_jsnext := None;
         o_browser := false;
         o_dedupe := None; o_preferBuiltins := None;
         o_rootDir := None; o_jail := None; o_only := None;
         o_skip := false; o_extensions := None;
         o_modulesOnly := false |}.
Proof.
  exact (browser_option_is_main_field (Demo.envOf Demo.nothingThere)
           Fixtures.browserModuleOptions ["module"] eq_refl eq_refl eq_refl).
Defined.

(** ** Side effects of a package *)

(** X20.  The [moduleSideEffects] that a freshly interpreted manifest gives
    a module, when its interpretation returns: the boolean [sideEffects] of
    the manifest; for an array, the answer of the filter made of it
    relative to the package root; [null] otherwise.  The override of [main]
    does not get in the way. *)
Theorem manifest_sideEffects pl e pkg pkgPath st info resolved :
  packageInfoCache st !! pkgPath = None ->
  fst (getCachedPackageInfo pl e pkg pkgPath st) = inr info ->
  applySideEffects e (i_hasModuleSideEffects info) (Some resolved)
  = match pkg !! "sideEffects" with
    | Some (JBool b) => Some b
    | Some (JArray patterns) =>
        Some (createFilter e patterns (root (i_packageInfo info)) resolved)
    | _ => None
    end.
Proof.
  intros Hmiss Hinfo.
  destruct (getCachedPackageInfo_fresh pl e pkg pkgPath st info Hmiss Hinfo)
    as (_ & _ & _ & _ & _ & _ & -> & ->).
  rewrite (selectMainField_other (mainFields pl) pkg "sideEffects") by done.
  by destruct (pkg !! "sideEffects") as [[]|].
Qed.

Lemma manifest_sideEffects_witness :
  exists info,
    fst (getCachedPackageInfo Demo.defaultPlugin (Demo.envOf Demo.nothingThere)
           Fixtures.pureManifest Demo.pkgPath Demo.emptyState) = inr info
    /\ applySideEffects (Demo.envOf Demo.nothingThere) (i_hasModuleSideEffects info)
         (Some "/proj/node_modules/pkg/esm/index.js")
       = Some false.
Proof.
  eexists. split; [vm_compute; reflexivity|].
  exact (manifest_sideEffects Demo.defaultPlugin (Demo.envOf Demo.nothingThere)
           Fixtures.pureManifest Demo.pkgPath Demo.emptyState _
           "/proj/node_modules/pkg/esm/index.js" (lookup_empty _) eq_refl).
Defined.
